(** * The ray CI test orchestrator ([ci/ray_ci/container.py], [ci/ray_ci/docker.py])

    A shallow embedding of the two orchestrator variants: the partitioned
    fan-out of [docker run] children, the fan-in of their exit codes and the
    reduction to one verdict.  Child processes are the only effects of the
    program, so a computation is a function on the history of [subprocess]
    calls; a raised Python exception is an outcome of its own, and the
    operating system is an oracle that answers each call from the history so
    far.  [docker_login] takes no part in [run_tests] and is left out. *)

From Stdlib Require Import ZArith Strings.Byte Strings.Ascii.
From stdpp Require Import gmap strings list.

Local Open Scope Z_scope.

(** ** Python values *)

(** A Python [str] is a [string] holding the UTF-8 encoding of the text, so
    that f-strings, [+] and [join] are concatenation; [bytes] is a list of
    bytes. *)
Definition bytes := list byte.

(** [sep.join(l)] *)
Definition join (sep : string) (l : list string) : string := String.concat sep l.

(** [f"{x}"] for the value of [os.environ.get(..)]: the text itself, or the
    word None when the variable is unset. *)
Definition format_opt (x : option string) : string :=
  match x with
  | Some s => s
  | None => "None"
  end.

Definition in_range (lo hi : N) (b : byte) : bool :=
  ((lo <=? Byte.to_N b) && (Byte.to_N b <=? hi))%N.

Definition continuation : byte -> bool := in_range 128 191.

(** Well-formed UTF-8 (no overlong form, no surrogate, nothing above
    U+10FFFF), as the strict codec accepts it. *)
Fixpoint utf8_valid (b : bytes) : bool :=
  match b with
  | [] => true
  | b0 :: r0 =>
    if in_range 0 127 b0 then utf8_valid r0 else
    match r0 with
    | [] => false
    | b1 :: r1 =>
      if in_range 194 223 b0 then continuation b1 && utf8_valid r1 else
      match r1 with
      | [] => false
      | b2 :: r2 =>
        if in_range 224 224 b0 then in_range 160 191 b1 && continuation b2 && utf8_valid r2
        else if in_range 237 237 b0 then in_range 128 159 b1 && continuation b2 && utf8_valid r2
        else if in_range 225 239 b0 then continuation b1 && continuation b2 && utf8_valid r2
        else
        match r2 with
        | [] => false
        | b3 :: r3 =>
          if in_range 240 240 b0
          then in_range 144 191 b1 && continuation b2 && continuation b3 && utf8_valid r3
          else if in_range 241 243 b0
          then continuation b1 && continuation b2 && continuation b3 && utf8_valid r3
          else if in_range 244 244 b0
          then in_range 128 143 b1 && continuation b2 && continuation b3 && utf8_valid r3
          else false
        end
      end
    end
  end.

(** [b.decode("utf-8")]: [None] stands for UnicodeDecodeError. *)
Definition decode_utf8 (b : bytes) : option string :=
  if utf8_valid b then Some (String.string_of_list_byte b) else None.

(** How many leading bytes of [s] encode one white-space character of
    [str.split()] (0 when [s] does not start with one): U+0009..000D,
    U+001C..0020, U+0085, U+00A0, U+1680, U+2000..200A, U+2028, U+2029,
    U+202F, U+205F, U+3000. *)
Definition space_width (s : bytes) : nat :=
  match s with
  | b0 :: r0 =>
    if in_range 9 13 b0 || in_range 28 32 b0 then 1%nat else
    match r0 with
    | b1 :: r1 =>
      if in_range 194 194 b0 && (in_range 133 133 b1 || in_range 160 160 b1) then 2%nat else
      match r1 with
      | b2 :: _ =>
        if in_range 225 225 b0 && in_range 154 154 b1 && in_range 128 128 b2 then 3%nat
        else if in_range 226 226 b0 && in_range 128 128 b1
                && (in_range 128 138 b2 || in_range 168 169 b2 || in_range 175 175 b2)
             then 3%nat
        else if in_range 226 226 b0 && in_range 129 129 b1 && in_range 159 159 b2 then 3%nat
        else if in_range 227 227 b0 && in_range 128 128 b1 && in_range 128 128 b2 then 3%nat
        else 0%nat
      | [] => 0%nat
      end
    | [] => 0%nat
    end
  | [] => 0%nat
  end.

(** The words of [s]: [skip] bytes of the current white-space character are
    still to be dropped, [word] is the word being read, reversed. *)
Fixpoint split_words (s : bytes) (skip : nat) (word : bytes) : list bytes :=
  let flush (rest : list bytes) :=
    match word with [] => rest | _ => rev word :: rest end in
  match s with
  | [] => flush []
  | c :: s' =>
    match skip with
    | S k => split_words s' k word
    | O =>
      match space_width s with
      | O => split_words s' O (c :: word)
      | S k => flush (split_words s' k [])
      end
    end
  end.

(** [s.split()] *)
Definition split (s : string) : list string :=
  String.string_of_list_byte <$> split_words (String.list_byte_of_string s) O [].

(** ** Outcomes and the subprocess monad *)

(** The exceptions of the program: those of [subprocess] and of the codec,
    and the configuration error of the Partitioner. *)
Inductive exn :=
| CalledProcessError (returncode : Z) (cmd : list string)
| OSError (cmd : list string)
| UnicodeDecodeError
| ConfigError.

Inductive outcome (A : Type) :=
| Ok (a : A)
| Raise (e : exn).
Arguments Ok {A} a.
Arguments Raise {A} e.

(** One call into [subprocess], with what the operating system answered.
    [None] is a child that could not be created (the call raised OSError). *)
Inductive event :=
| ECheckCall (argv : list string) (env : gmap string string) (r : option Z)
| ECheckOutput (argv : list string) (r : option (Z * bytes))
| EPopen (argv : list string) (r : option nat)
| EWait (pid : nat) (returncode : Z).

Definition history := list event.

(** The environment of the orchestrator: each answer may depend on
    everything that happened before. *)
Record OS := {
  environ : gmap string string;
  can_spawn : history -> list string -> bool;
  exit_status : history -> list string -> Z;
  stdout_of : history -> list string -> bytes;
  wait_status : history -> nat -> Z
}.

Definition M (A : Type) : Type := history -> outcome A * history.

Definition ret {A} (a : A) : M A := fun h => (Ok a, h).

Definition raise {A} (e : exn) : M A := fun h => (Raise e, h).

Definition bind {A B} (m : M A) (k : A -> M B) : M B :=
  fun h =>
    match m h with
    | (Ok a, h') => k a h'
    | (Raise e, h') => (Raise e, h')
    end.

Definition lift {A} (o : outcome A) : M A := fun h => (o, h).

Notation "x <- m ;; k" := (bind m (fun x => k))
  (at level 100, m at next level, right associativity).

(** A list comprehension [[f(x) for x in l]]: left to right, and the first
    exception ends it. *)
Fixpoint mapM {A B} (f : A -> M B) (l : list A) : M (list B) :=
  match l with
  | [] => ret []
  | x :: l' => y <- f x ;; ys <- mapM f l' ;; ret (y :: ys)
  end.

(** ** The [subprocess] module, as the orchestrator uses it *)

Module subprocess.

(** A [Popen] object.  Its identity is the position of its creation in the
    history, so two objects are never the same one. *)
Record process := { pid : nat; args : list string }.

Section calls.
Context (os : OS).

(** [subprocess.Popen(argv)]: starts the child and returns at once. *)
Definition Popen (argv : list string) : M process :=
  fun h =>
    if can_spawn os h argv
    then (Ok {| pid := length h; args := argv |}, h ++ [EPopen argv (Some (length h))])
    else (Raise (OSError argv), h ++ [EPopen argv None]).

(** [p.wait()]: blocks until the child ends and returns its exit code. *)
Definition wait (p : process) : M Z :=
  fun h => let c := wait_status os h (pid p) in (Ok c, h ++ [EWait (pid p) c]).

(** [subprocess.check_call(argv, env=env)]: runs the child to its end and
    raises CalledProcessError unless it exits with 0. *)
Definition check_call (argv : list string) (env : gmap string string) : M unit :=
  fun h =>
    if can_spawn os h argv
    then let c := exit_status os h argv in
         (if c =? 0 then Ok tt else Raise (CalledProcessError c argv),
          h ++ [ECheckCall argv env (Some c)])
    else (Raise (OSError argv), h ++ [ECheckCall argv env None]).

(** [subprocess.check_output(argv)]: as [check_call], and returns what the
    child wrote to its standard output. *)
Definition check_output (argv : list string) : M bytes :=
  fun h =>
    if can_spawn os h argv
    then let c := exit_status os h argv in
         let out := stdout_of os h argv in
         (if c =? 0 then Ok out else Raise (CalledProcessError c argv),
          h ++ [ECheckOutput argv (Some (c, out))])
    else (Raise (OSError argv), h ++ [ECheckOutput argv None]).
End calls.

End subprocess.

(** ** [ci/ray_ci/utils.py] *)

Module utils.

(** Modelled from the spec: contiguous slices, here consecutive slices of
    [l] of the given sizes. *)
Fixpoint cut (sizes : list nat) (l : list string) : list (list string) :=
  match sizes with
  | [] => []
  | k :: sizes' => take k l :: cut sizes' (drop k l)
  end.

(** Modelled from the spec: the sizes of balanced chunking; with
    [len = q*n + r] and [0 <= r < n], the first [r] are [q+1] and the other
    [n-r] are [q]. *)
Definition balanced_sizes (len n : nat) : list nat :=
  (replicate (len mod n) (S (len / n)) ++ replicate (n - len mod n) (len / n))%nat.

(** Modelled from the spec: [chunk_into_n] of ci/ray_ci/utils.py, which both
    orchestrators import and which is not among the sources.  The spec's
    Partitioner: a non-positive [n] is a configuration error; otherwise the
    targets are cut into contiguous balanced slices, and empty partitions are
    never emitted. *)
Definition chunk_into_n (targets : list string) (n : Z) : outcome (list (list string)) :=
  if n <=? 0 then Raise ConfigError
  else Ok (filter (fun c => c <> [])
                  (cut (balanced_sizes (length targets) (Z.to_nat n)) targets)).

End utils.

(** ** [ci/ray_ci/container.py] *)

Module container.

Definition DOCKER_ECR : string := "029272617770.dkr.ecr.us-west-2.amazonaws.com".
Definition DOCKER_REPO : string := "ci_base_images".
Definition ROOT_DIR : string := "/ray/ci/ray_ci".

Section program.
Context (os : OS).
(** [chunk_into_n] is imported from ci/ray_ci/utils.py. *)
Context (chunk_into_n : list string -> Z -> outcome (list (list string))).

(** Evaluated once, when the module is imported; the orchestrator never
    writes to [os.environ], so one [environ] serves the import and the run. *)
Definition DOCKER_TAG : string :=
  "oss-ci-build_" +:+ format_opt (environ os !! "BUILDKITE_COMMIT").

Definition _get_docker_image : string :=
  DOCKER_ECR +:+ "/" +:+ DOCKER_REPO +:+ ":" +:+ DOCKER_TAG.

Definition _get_docker_run_command : list string :=
  [ "docker"; "run"; "-i"; "--rm"; "--workdir"; "/ray"; "--shm-size=2.5gb";
    _get_docker_image ].

Definition _docker_run_bash_script (script : string) : list string :=
  _get_docker_run_command ++ ["/bin/bash"; "-ice"; script].

Definition run_command (script : string) : M bytes :=
  subprocess.check_output os (_docker_run_bash_script script).

Definition _run_tests_in_docker (test_targets : list string) : M subprocess.process :=
  let command := "bazel test --config=ci " +:+ join " " test_targets in
  subprocess.Popen os (_docker_run_bash_script command).

Definition _setup_test_environment (team : string) : M unit :=
  let env := <["DOCKER_BUILDKIT" := "1"]> (environ os) in
  subprocess.check_call os
    [ "docker"; "build";
      "--build-arg"; "BASE_IMAGE=" +:+ _get_docker_image;
      "--build-arg"; "TEST_ENVIRONMENT_SCRIPT=" +:+ team +:+ ".tests.env.sh";
      "-t"; _get_docker_image;
      "-f"; ROOT_DIR +:+ "/tests.env.Dockerfile";
      ROOT_DIR ]
    env.

(** [all(exit == 0 for exit in exits)] *)
Definition all_zero (exits : list Z) : bool := forallb (fun e => e =? 0) exits.

Definition run_tests (team : string) (test_targets : list string) (parallelism : Z)
  : M bool :=
  chunks <- lift (chunk_into_n test_targets parallelism) ;;
  _ <- _setup_test_environment team ;;
  runs <- mapM _run_tests_in_docker chunks ;;
  exits <- mapM (subprocess.wait os) runs ;;
  ret (all_zero exits).
End program.

End container.

(** ** [ci/ray_ci/docker.py] *)

Module docker.

Definition DOCKER_ECR : string := "029272617770.dkr.ecr.us-west-2.amazonaws.com".
Definition DOCKER_REPO : string := "ci_base_images".

(** The line feed of ["\n".join(..)]. *)
Definition LF : string := String "010"%char "".

Section program.
Context (os : OS).
Context (chunk_into_n : list string -> Z -> outcome (list (list string))).

Definition DOCKER_TAG : string :=
  "oss-ci-build_" +:+ format_opt (environ os !! "BUILDKITE_COMMIT").

Definition _get_docker_image : string :=
  DOCKER_ECR +:+ "/" +:+ DOCKER_REPO +:+ ":" +:+ DOCKER_TAG.

Definition _get_docker_run_command : list string :=
  [ "docker"; "run"; "-i"; "--rm"; "--workdir"; "/ray"; "--shm-size=2.5gb";
    _get_docker_image ].

Definition run_command (command : list string) : M bytes :=
  subprocess.check_output os
    (_get_docker_run_command ++ ["/bin/bash"; "-ic"; join " " command]).

Definition decode (b : bytes) : M string :=
  match decode_utf8 b with
  | Some s => ret s
  | None => raise UnicodeDecodeError
  end.

Definition _run_tests_in_docker (test_targets pre_test_commands : list string)
  : M subprocess.process :=
  out <- run_command ["./ci/run/bazel_export_options"] ;;
  text <- decode out ;;
  let bazel_options := split text in
  let bazel_command := ["bazel"; "test"; "--config=ci"] ++ test_targets ++ bazel_options in
  let command := join LF (pre_test_commands ++ [join " " bazel_command]) in
  subprocess.Popen os (_get_docker_run_command ++ ["/bin/bash"; "-ic"; command]).

Definition all_zero (exits : list Z) : bool := forallb (fun e => e =? 0) exits.

Definition run_tests (test_targets pre_run_commands : list string) (parallelism : Z)
  : M Z :=
  chunks <- lift (chunk_into_n test_targets parallelism) ;;
  runs <- mapM (fun chunk => _run_tests_in_docker chunk pre_run_commands) chunks ;;
  exits <- mapM (subprocess.wait os) runs ;;
  ret (if all_zero exits then 0 else 1).
End program.

End docker.

(** ** Reading a history *)

(** The handles that were obtained, in order. *)
Definition launched (h : history) : list nat :=
  omap (fun e => match e with EPopen _ (Some p) => Some p | _ => None end) h.

(** The command lines of every [Popen] call, whether it raised or not. *)
Definition attempts (h : history) : list (list string) :=
  omap (fun e => match e with EPopen a _ => Some a | _ => None end) h.

(** The command lines of the [Popen] calls that raised. *)
Definition failed_launches (h : history) : list (list string) :=
  omap (fun e => match e with EPopen a None => Some a | _ => None end) h.

(** The handles that were waited upon, and the exit codes collected. *)
Definition waited (h : history) : list nat :=
  omap (fun e => match e with EWait p _ => Some p | _ => None end) h.

Definition exits_of (h : history) : list Z :=
  omap (fun e => match e with EWait _ c => Some c | _ => None end) h.

(** The events of a fan-out in which every launch succeeds, the first
    handle being [start]; and the handles themselves. *)
Definition launch_events (start : nat) (argvs : list (list string)) : history :=
  imap (fun i a => EPopen a (Some (start + i)%nat)) argvs.

Definition handles (start : nat) (argvs : list (list string)) : list subprocess.process :=
  imap (fun i a => {| subprocess.pid := (start + i)%nat; subprocess.args := a |}) argvs.

(** The events of a fan-in. *)
Definition wait_events (pids : list nat) (exits : list Z) : history :=
  zip_with EWait pids exits.

(** The command line of the image build of [container._setup_test_environment],
    and the one [container._run_tests_in_docker] launches for a partition. *)
Definition build_argv (os : OS) (team : string) : list string :=
  [ "docker"; "build";
    "--build-arg"; "BASE_IMAGE=" +:+ container._get_docker_image os;
    "--build-arg"; "TEST_ENVIRONMENT_SCRIPT=" +:+ team +:+ ".tests.env.sh";
    "-t"; container._get_docker_image os;
    "-f"; container.ROOT_DIR +:+ "/tests.env.Dockerfile";
    container.ROOT_DIR ].

Definition build_env (os : OS) : gmap string string :=
  <["DOCKER_BUILDKIT" := "1"]> (environ os).

Definition test_argv (os : OS) (chunk : list string) : list string :=
  container._docker_run_bash_script os ("bazel test --config=ci " +:+ join " " chunk).

(** The command line [docker._run_tests_in_docker] launches for a partition,
    given the options the export script printed. *)
Definition docker_test_argv (os : OS) (pre chunk opts : list string) : list string :=
  docker._get_docker_run_command os ++
  [ "/bin/bash"; "-ic";
    join docker.LF (pre ++ [join " " (["bazel"; "test"; "--config=ci"] ++ chunk ++ opts)]) ].

(** What the export script is asked for in [docker._run_tests_in_docker]. *)
Definition options_argv (os : OS) : list string :=
  docker._get_docker_run_command os ++
  ["/bin/bash"; "-ic"; join " " ["./ci/run/bazel_export_options"]].

(** Every launch comes before every wait. *)
Definition fan_out_then_fan_in (h : history) : Prop :=
  exists out_part in_part,
    h = out_part ++ in_part /\ waited out_part = [] /\ attempts in_part = [].

(** The handles waited upon are the handles obtained, each once. *)
Definition every_handle_waited_once (h : history) : Prop :=
  waited h = launched h /\ NoDup (launched h).

(** An operating system under which every child starts, every blocking
    child succeeds and prints well-formed UTF-8. *)
Definition cooperative (os : OS) : Prop :=
  (forall h a, can_spawn os h a = true) /\
  (forall h a, exit_status os h a = 0) /\
  (forall h a, utf8_valid (stdout_of os h a) = true).

(** The command lines of the children that were run to their end
    ([check_call], [check_output]). *)
Definition blocking_calls (h : history) : list (list string) :=
  omap (fun e => match e with
                 | ECheckCall a _ _ | ECheckOutput a _ => Some a
                 | _ => None
                 end) h.

(** What one partition leaves in the history of the docker variant when its
    launch succeeds: the export script printed [out], and the container got
    the handle [p]. *)
Definition docker_launch_pair (os : OS) (pre chunk : list string) (out : bytes) (p : nat)
  : history :=
  [ ECheckOutput (options_argv os) (Some (0, out));
    EPopen (docker_test_argv os pre chunk (split (String.string_of_list_byte out)))
           (Some p) ].

(** The fan-out of the docker variant over [chunks], the export script
    printing [outs] in turn; the history held [start] events before. *)
Fixpoint docker_fan_out_events (os : OS) (pre : list string) (start : nat)
    (chunks : list (list string)) (outs : list bytes) : history :=
  match chunks, outs with
  | c :: chunks', out :: outs' =>
    docker_launch_pair os pre c out (S start)
    ++ docker_fan_out_events os pre (S (S start)) chunks' outs'
  | _, _ => []
  end.

(** The handles of that fan-out: every second event. *)
Fixpoint docker_handles (start : nat) (chunks : list (list string)) : list nat :=
  match chunks with
  | [] => []
  | _ :: chunks' => S start :: docker_handles (S (S start)) chunks'
  end.

(** The ways one launch of the docker variant can raise for the partition
    [c], with what it leaves in the history: the export script cannot start,
    it exits non-zero, its output is not UTF-8, or the container cannot
    start. *)
Definition docker_launch_failure (os : OS) (pre c : list string) (e : exn) (tail : history)
  : Prop :=
  (e = OSError (options_argv os) /\ tail = [ECheckOutput (options_argv os) None]) \/
  (exists code out,
      code <> 0 /\ e = CalledProcessError code (options_argv os) /\
      tail = [ECheckOutput (options_argv os) (Some (code, out))]) \/
  (exists out,
      decode_utf8 out = None /\ e = UnicodeDecodeError /\
      tail = [ECheckOutput (options_argv os) (Some (0, out))]) \/
  (exists out,
      utf8_valid out = true /\
      e = OSError (docker_test_argv os pre c (split (String.string_of_list_byte out))) /\
      tail = [ ECheckOutput (options_argv os) (Some (0, out));
               EPopen (docker_test_argv os pre c (split (String.string_of_list_byte out)))
                      None ]).

(** [needle in hay] for two [str]. *)
Fixpoint contains (needle hay : string) : bool :=
  String.prefix needle hay ||
  match hay with
  | EmptyString => false
  | String _ hay' => contains needle hay'
  end.

(** No white-space character of [str.split()] starts anywhere in [w], read
    with [t] after it; and in [w] alone. *)
Fixpoint spaceless_before (w t : bytes) : Prop :=
  match w with
  | [] => True
  | c :: w' => space_width (c :: w' ++ t) = O /\ spaceless_before w' t
  end.

Fixpoint no_space (w : bytes) : bool :=
  match w with
  | [] => true
  | _ :: w' => (space_width w =? 0)%nat && no_space w'
  end.

(** A word: a [str] that is not empty and holds no white space. *)
Definition word (s : string) : bool :=
  negb (String.eqb s "") && no_space (String.list_byte_of_string s).

(** [b" ".join(ws)] *)
Fixpoint join_bytes (ws : list bytes) : bytes :=
  match ws with
  | [] => []
  | [w] => w
  | w :: ws' => w ++ x20 :: join_bytes ws'
  end.

(** The assertion of [test_run_command] (ci/ray_ci/test_docker.py) on the
    command line that [run_command] hands to [subprocess.check_output]. *)
Definition _mock_check_output (input : list string) : bool :=
  contains "/bin/bash -ic run command" (join " " input).

(** ** [docker_login]

    [docker_login] runs children of other kinds than [run_tests] does ([run]
    with a redirected standard input, a [Popen] with a pipe) and writes a
    temporary file, so it has a history of its own. *)

Module login.

(** Where the standard input of a child comes from: not redirected; a file,
    read from its position on; or the pipe from the standard output of the
    child [pid]. *)
Inductive stdin :=
| Inherited
| FromFile (rest : bytes)
| FromPipe (pid : nat).

(** One call, with the answer of the operating system ([None]: the child
    could not be created, [false]: no file could be made). *)
Inductive call :=
| Run (argv : list string) (input : stdin) (r : option Z)
| CheckOutput (argv : list string) (r : option (Z * bytes))
| PopenPipe (argv : list string) (r : option nat)
| TemporaryFile (ok : bool).

Record OS := {
  starts : list call -> list string -> bool;
  status : list call -> list string -> Z;
  output : list call -> list string -> bytes;
  tempfile_ok : list call -> bool
}.

Definition L (A : Type) : Type := list call -> outcome A * list call.

Definition ret {A} (a : A) : L A := fun h => (Ok a, h).

Definition bind {A B} (m : L A) (k : A -> L B) : L B :=
  fun h =>
    match m h with
    | (Ok a, h') => k a h'
    | (Raise e, h') => (Raise e, h')
    end.

(** A binary file object: its bytes and its position. *)
Record file := { content : bytes; pos : nat }.

(** [f.write(data)]: overwrites from the position on (a gap after the end
    is filled with zero bytes) and moves the position past the data. *)
Definition write (data : bytes) (f : file) : file :=
  {| content := take (pos f) (content f ++ replicate (pos f - length (content f)) x00)
                ++ data ++ drop (pos f + length data) (content f);
     pos := pos f + length data |}.

(** [f.flush()] hands the buffer to the operating system: the same file. *)
Definition flush (f : file) : file := f.

(** [f.seek(n)] *)
Definition seek (n : nat) (f : file) : file := {| content := content f; pos := n |}.

(** What a child that inherits [f] as its standard input reads. *)
Definition readable (f : file) : bytes := drop (pos f) (content f).

Section calls.
Context (os : OS).

(** [subprocess.run(argv, stdin=..)]: runs the child to its end; its exit
    code is returned, never checked. *)
Definition run (argv : list string) (input : stdin) : L Z :=
  fun h =>
    if starts os h argv
    then (Ok (status os h argv), h ++ [Run argv input (Some (status os h argv))])
    else (Raise (OSError argv), h ++ [Run argv input None]).

(** [subprocess.check_output(argv, stderr=sys.stderr)] *)
Definition check_output (argv : list string) : L bytes :=
  fun h =>
    if starts os h argv
    then let c := status os h argv in
         let out := output os h argv in
         (if (c =? 0)%Z then Ok out else Raise (CalledProcessError c argv),
          h ++ [CheckOutput argv (Some (c, out))])
    else (Raise (OSError argv), h ++ [CheckOutput argv None]).

(** [subprocess.Popen(argv, stdout=subprocess.PIPE)]: the handle of the
    child, whose standard output is the pipe [p.stdout]. *)
Definition popen_pipe (argv : list string) : L nat :=
  fun h =>
    if starts os h argv
    then (Ok (length h), h ++ [PopenPipe argv (Some (length h))])
    else (Raise (OSError argv), h ++ [PopenPipe argv None]).

(** [tempfile.TemporaryFile()]: an empty file at position 0. *)
Definition temporary_file : L file :=
  fun h =>
    if tempfile_ok os h
    then (Ok {| content := []; pos := 0 |}, h ++ [TemporaryFile true])
    else (Raise (OSError []), h ++ [TemporaryFile false]).
End calls.

Definition pip_argv : list string := ["pip"; "install"; "awscli"].

Definition aws_argv : list string :=
  ["aws"; "ecr"; "get-login-password"; "--region"; "us-west-2"].

Definition login_argv (registry : string) : list string :=
  ["docker"; "login"; "--username"; "AWS"; "--password-stdin"; registry].

(** [docker_login] of [ci/ray_ci/container.py] *)
Definition container_docker_login (os : OS) : L unit :=
  bind (run os pip_argv Inherited) (fun _ =>
  bind (check_output os aws_argv) (fun password =>
  bind (temporary_file os) (fun f =>
  let f := write password f in
  let f := flush f in
  let f := seek 0 f in
  bind (run os (login_argv container.DOCKER_ECR) (FromFile (readable f))) (fun _ =>
  ret tt)))).

(** [docker_login] of [ci/ray_ci/docker.py] *)
Definition docker_docker_login (os : OS) : L unit :=
  bind (popen_pipe os aws_argv) (fun p =>
  bind (run os (login_argv docker.DOCKER_ECR) (FromPipe p)) (fun _ =>
  ret tt)).

(** The calls of [docker login] in a history, with their standard input. *)
Definition logins (h : list call) : list (stdin * option Z) :=
  omap (fun c => match c with
                 | Run ("docker" :: _) input r => Some (input, r)
                 | _ => None
                 end) h.

(** An operating system for the examples: the children whose command is
    headed by one of [missing] cannot start, [aws] exits with [aws_code]
    after printing [password], every other child exits with [code]. *)
Definition scripted (missing : list string) (aws_code code : Z) (password : bytes) : OS :=
  {| starts := fun _ argv => match argv with
                             | prog :: _ => negb (bool_decide (prog ∈ missing))
                             | [] => false
                             end;
     status := fun _ argv => match argv with
                             | "aws" :: _ => aws_code
                             | _ => code
                             end;
     output := fun _ _ => password;
     tempfile_ok := fun _ => true |}.

End login.

(** An operating system for the examples: the calls made when the history
    has one of the lengths [refuse] cannot start their child, every blocking
    child ends with [build], prints [out], and the child with handle [p]
    ends with [codes p]. *)
Definition scripted_os (commit : option string) (refuse : list nat) (build : Z)
    (out : bytes) (codes : nat -> Z) : OS :=
  {| environ := match commit with
                | Some c => {["BUILDKITE_COMMIT" := c]}
                | None => ∅
                end;
     can_spawn := fun h _ => negb (bool_decide (length h ∈ refuse));
     exit_status := fun _ _ => build;
     stdout_of := fun _ _ => out;
     wait_status := fun _ p => codes p |}.

(** The reading of a launch error as one more failing partition: a launch
    that raised leaves a verdict of failure, every partition attempted and
    every handle obtained waited upon. *)
Definition launch_error_folded (os : OS) (chunks : list (list string))
    (r : outcome bool * history) : Prop :=
  failed_launches r.2 <> [] ->
  r.1 = Ok false /\
  attempts r.2 = test_argv os <$> chunks /\
  waited r.2 = launched r.2.

(** The second of three launches cannot start: the build and the first
    launch are events 0 and 1. *)
Definition second_launch_refused : OS :=
  scripted_os (Some "4f2a") [2%nat] 0 [] (fun _ => 0).

(** ** Lemmas on histories *)

Section history_lemmas.
Implicit Types h k : history.

Lemma launched_app h k : launched (h ++ k) = launched h ++ launched k.
Proof. apply omap_app. Qed.

Lemma attempts_app h k : attempts (h ++ k) = attempts h ++ attempts k.
Proof. apply omap_app. Qed.

Lemma failed_launches_app h k :
  failed_launches (h ++ k) = failed_launches h ++ failed_launches k.
Proof. apply omap_app. Qed.

Lemma waited_app h k : waited (h ++ k) = waited h ++ waited k.
Proof. apply omap_app. Qed.

Lemma exits_of_app h k : exits_of (h ++ k) = exits_of h ++ exits_of k.
Proof. apply omap_app. Qed.

Lemma launch_events_cons s a l :
  launch_events s (a :: l) = EPopen a (Some s) :: launch_events (S s) l.
Proof.
  unfold launch_events. cbn [imap]. rewrite Nat.add_0_r. f_equal.
  apply imap_ext. intros i x _. cbn. do 2 f_equal. lia.
Qed.

Lemma handles_cons s a l :
  handles s (a :: l) =
  {| subprocess.pid := s; subprocess.args := a |} :: handles (S s) l.
Proof.
  unfold handles. cbn [imap]. rewrite Nat.add_0_r. f_equal.
  apply imap_ext. intros i x _. cbn. f_equal. lia.
Qed.

Lemma launch_events_length s l : length (launch_events s l) = length l.
Proof. apply length_imap. Qed.

Lemma handles_length s l : length (handles s l) = length l.
Proof. apply length_imap. Qed.

Lemma launched_launch_events s l : launched (launch_events s l) = seq s (length l).
Proof.
  revert s. induction l as [|a l IH]; intros s; [done|].
  rewrite launch_events_cons. cbn. unfold launched in IH. by rewrite IH.
Qed.

Lemma attempts_launch_events s l : attempts (launch_events s l) = l.
Proof.
  revert s. induction l as [|a l IH]; intros s; [done|].
  rewrite launch_events_cons. cbn. unfold attempts in IH. by rewrite IH.
Qed.

Lemma failed_launch_events s l : failed_launches (launch_events s l) = [].
Proof.
  revert s. induction l as [|a l IH]; intros s; [done|].
  rewrite launch_events_cons. cbn. unfold failed_launches in IH. by rewrite IH.
Qed.

Lemma waited_launch_events s l : waited (launch_events s l) = [].
Proof.
  revert s. induction l as [|a l IH]; intros s; [done|].
  rewrite launch_events_cons. cbn. unfold waited in IH. by rewrite IH.
Qed.

Lemma exits_launch_events s l : exits_of (launch_events s l) = [].
Proof.
  revert s. induction l as [|a l IH]; intros s; [done|].
  rewrite launch_events_cons. cbn. unfold exits_of in IH. by rewrite IH.
Qed.

Lemma pids_handles s l : subprocess.pid <$> handles s l = seq s (length l).
Proof.
  revert s. induction l as [|a l IH]; intros s; [done|].
  rewrite handles_cons. cbn. by rewrite IH.
Qed.

Lemma args_handles s l : subprocess.args <$> handles s l = l.
Proof.
  revert s. induction l as [|a l IH]; intros s; [done|].
  rewrite handles_cons. cbn. by rewrite IH.
Qed.

Lemma waited_wait_events pids exits :
  length exits = length pids -> waited (wait_events pids exits) = pids.
Proof.
  revert exits. induction pids as [|p pids IH]; intros [|c exits] Hl; try done.
  cbn. unfold waited, wait_events in IH. rewrite IH; [done|]. cbn in Hl. lia.
Qed.

Lemma exits_wait_events pids exits :
  length exits = length pids -> exits_of (wait_events pids exits) = exits.
Proof.
  revert exits. induction pids as [|p pids IH]; intros [|c exits] Hl; try done.
  cbn. unfold exits_of, wait_events in IH. rewrite IH; [done|]. cbn in Hl. lia.
Qed.

Lemma launched_wait_events pids exits : launched (wait_events pids exits) = [].
Proof.
  revert exits. induction pids as [|p pids IH]; intros [|c exits]; try done.
  apply IH.
Qed.

Lemma attempts_wait_events pids exits : attempts (wait_events pids exits) = [].
Proof.
  revert exits. induction pids as [|p pids IH]; intros [|c exits]; try done.
  apply IH.
Qed.

Lemma failed_wait_events pids exits : failed_launches (wait_events pids exits) = [].
Proof.
  revert exits. induction pids as [|p pids IH]; intros [|c exits]; try done.
  apply IH.
Qed.
End history_lemmas.

(** ** Fan-in and fan-out *)

Section supervisor_lemmas.
Context (os : OS).
Implicit Types h : history.

Lemma bind_ok {A B} (m : M A) (k : A -> M B) h a h' :
  m h = (Ok a, h') -> bind m k h = k a h'.
Proof. unfold bind. by intros ->. Qed.

Lemma bind_raise {A B} (m : M A) (k : A -> M B) h e h' :
  m h = (Raise e, h') -> bind m k h = (Raise e, h').
Proof. unfold bind. by intros ->. Qed.

(** Waiting never raises: every handle of [runs] is waited upon, once and
    in order. *)
Lemma fan_in (runs : list subprocess.process) h :
  exists exits,
    length exits = length runs /\
    mapM (subprocess.wait os) runs h =
      (Ok exits, h ++ wait_events (subprocess.pid <$> runs) exits).
Proof.
  revert h. induction runs as [|p runs IH]; intros h.
  - exists []. split; [done|]. cbn. unfold ret. by rewrite app_nil_r.
  - destruct (IH (h ++ [EWait (subprocess.pid p) (wait_status os h (subprocess.pid p))]))
      as (exits & Hl & Hm).
    exists (wait_status os h (subprocess.pid p) :: exits). split; [cbn; lia|].
    cbn [mapM]. erewrite bind_ok; [|reflexivity].
    erewrite bind_ok; [|exact Hm].
    unfold ret. cbn. by rewrite <- app_assoc.
Qed.

(** The fan-out of [container.run_tests]: either every launch succeeds, or
    the first launch that raises ends the comprehension. *)
Lemma container_fan_out (chunks : list (list string)) h :
  let r := mapM (container._run_tests_in_docker os) chunks h in
  r = (Ok (handles (length h) (test_argv os <$> chunks)),
       h ++ launch_events (length h) (test_argv os <$> chunks))
  \/ exists k c,
       chunks !! k = Some c /\
       can_spawn os (h ++ launch_events (length h) (test_argv os <$> take k chunks))
                 (test_argv os c) = false /\
       r = (Raise (OSError (test_argv os c)),
            h ++ launch_events (length h) (test_argv os <$> take k chunks)
              ++ [EPopen (test_argv os c) None]).
Proof.
  revert h. induction chunks as [|c chunks IH]; intros h; cbn zeta.
  - left. cbn. unfold ret. by rewrite app_nil_r.
  - cbn [mapM].
    destruct (can_spawn os h (test_argv os c)) eqn:Hs.
    + assert (container._run_tests_in_docker os c h =
              (Ok {| subprocess.pid := length h; subprocess.args := test_argv os c |},
               h ++ [EPopen (test_argv os c) (Some (length h))])) as Hstep.
      { unfold container._run_tests_in_docker, subprocess.Popen.
        fold (test_argv os c). by rewrite Hs. }
      erewrite bind_ok; [|exact Hstep].
      specialize (IH (h ++ [EPopen (test_argv os c) (Some (length h))])).
      cbn zeta in IH. rewrite length_app in IH. cbn [length] in IH.
      replace (length h + 1)%nat with (S (length h)) in IH by lia.
      destruct IH as [IH | (k & c' & Hk & Hno & IH)].
      * left. erewrite bind_ok; [|exact IH]. unfold ret.
        rewrite fmap_cons, handles_cons, launch_events_cons.
        by rewrite <- app_assoc.
      * right. exists (S k), c'. split; [done|].
        cbn [take]. rewrite fmap_cons, launch_events_cons.
        rewrite <- app_assoc in Hno. split; [exact Hno|].
        erewrite bind_raise; [|exact IH]. by rewrite <- !app_assoc.
    + right. exists O, c. split; [done|]. cbn. rewrite app_nil_r. split; [done|].
      erewrite bind_raise; [reflexivity|].
      unfold container._run_tests_in_docker, subprocess.Popen.
      fold (test_argv os c). by rewrite Hs.
Qed.
End supervisor_lemmas.

(** ** Case analyses of the two orchestrators *)

Section orchestrator_lemmas.
Context (os : OS).
Context (chunk_into_n : list string -> Z -> outcome (list (list string))).
Implicit Types h : history.

(** Every way [container.run_tests] can end, from an empty history. *)
Lemma container_run_tests_cases (team : string) (T : list string) (n : Z) :
  let r := container.run_tests os chunk_into_n team T n [] in
  let build := build_argv os team in
  match chunk_into_n T n with
  | Raise e => r = (Raise e, [])
  | Ok chunks =>
    if can_spawn os [] build then
      let c := exit_status os [] build in
      let b := ECheckCall build (build_env os) (Some c) in
      if c =? 0 then
        (exists exits,
            length exits = length chunks /\
            r = (Ok (container.all_zero exits),
                 [b] ++ launch_events 1 (test_argv os <$> chunks)
                     ++ wait_events (seq 1 (length chunks)) exits))
        \/ (exists k c',
               chunks !! k = Some c' /\
               can_spawn os ([b] ++ launch_events 1 (test_argv os <$> take k chunks))
                         (test_argv os c') = false /\
               r = (Raise (OSError (test_argv os c')),
                    [b] ++ launch_events 1 (test_argv os <$> take k chunks)
                        ++ [EPopen (test_argv os c') None]))
      else r = (Raise (CalledProcessError c build), [b])
    else r = (Raise (OSError build), [ECheckCall build (build_env os) None])
  end.
Proof.
  cbn zeta. unfold container.run_tests.
  destruct (chunk_into_n T n) as [chunks|e] eqn:Hc; [|reflexivity].
  erewrite bind_ok; [|reflexivity].
  assert (container._setup_test_environment os team [] =
          subprocess.check_call os (build_argv os team) (build_env os) []) as Hb
    by reflexivity.
  unfold subprocess.check_call in Hb.
  destruct (can_spawn os [] (build_argv os team)) eqn:Hs.
  2:{ erewrite bind_raise; [reflexivity|exact Hb]. }
  cbn zeta in Hb.
  destruct (exit_status os [] (build_argv os team) =? 0) eqn:Hz.
  2:{ erewrite bind_raise; [reflexivity|exact Hb]. }
  erewrite bind_ok; [|exact Hb]. rewrite app_nil_l.
  set (b := ECheckCall _ _ _).
  destruct (container_fan_out os chunks [b]) as [Hf | (k & c' & Hk & Hno & Hf)];
    cbn [length] in *.
  - left. erewrite bind_ok; [|exact Hf].
    destruct (fan_in os (handles 1 (test_argv os <$> chunks))
                ([b] ++ launch_events 1 (test_argv os <$> chunks)))
      as (exits & Hl & Hw).
    rewrite handles_length, length_fmap in Hl.
    rewrite pids_handles, length_fmap in Hw.
    exists exits. split; [exact Hl|].
    erewrite bind_ok; [|exact Hw]. unfold ret. by rewrite <- app_assoc.
  - right. exists k, c'. split; [exact Hk|]. split; [exact Hno|].
    erewrite bind_raise; [reflexivity|exact Hf].
Qed.

(** One launch of [docker._run_tests_in_docker]: the export script is run
    first, and only its success and a decodable output lead to a [Popen]. *)
Lemma docker_launch_step (pre c : list string) h :
  let r := docker._run_tests_in_docker os c pre h in
  if can_spawn os h (options_argv os) then
    let code := exit_status os h (options_argv os) in
    let out := stdout_of os h (options_argv os) in
    let q := ECheckOutput (options_argv os) (Some (code, out)) in
    if code =? 0 then
      match decode_utf8 out with
      | Some text =>
        let a := docker_test_argv os pre c (split text) in
        if can_spawn os (h ++ [q]) a
        then r = (Ok {| subprocess.pid := S (length h); subprocess.args := a |},
                  h ++ [q; EPopen a (Some (S (length h)))])
        else r = (Raise (OSError a), h ++ [q; EPopen a None])
      | None => r = (Raise UnicodeDecodeError, h ++ [q])
      end
    else r = (Raise (CalledProcessError code (options_argv os)), h ++ [q])
  else r = (Raise (OSError (options_argv os)), h ++ [ECheckOutput (options_argv os) None]).
Proof.
  cbn zeta. unfold docker._run_tests_in_docker.
  assert (docker.run_command os ["./ci/run/bazel_export_options"] h =
          subprocess.check_output os (options_argv os) h) as Hq by reflexivity.
  unfold subprocess.check_output in Hq.
  destruct (can_spawn os h (options_argv os)) eqn:Hs.
  2:{ erewrite bind_raise; [reflexivity|exact Hq]. }
  cbn zeta in Hq.
  destruct (exit_status os h (options_argv os) =? 0) eqn:Hz.
  2:{ erewrite bind_raise; [reflexivity|exact Hq]. }
  erewrite bind_ok; [|exact Hq].
  unfold docker.decode.
  destruct (decode_utf8 (stdout_of os h (options_argv os))) as [text|] eqn:Hd.
  2:{ erewrite bind_raise; [reflexivity|reflexivity]. }
  erewrite bind_ok; [|reflexivity].
  fold (docker_test_argv os pre c (split text)).
  unfold subprocess.Popen. rewrite length_app. cbn [length].
  replace (length h + 1)%nat with (S (length h)) by lia.
  destruct (can_spawn os (h ++ _) _); by rewrite <- app_assoc.
Qed.
End orchestrator_lemmas.

Section docker_lemmas.
Context (os : OS).
Implicit Types h : history.

(** What one launch of the docker variant leaves in the history. *)
Lemma docker_launch_events (pre c : list string) h :
  let r := docker._run_tests_in_docker os c pre h in
  exists evs,
    r.2 = h ++ evs /\ waited evs = [] /\ exits_of evs = [] /\
    match r.1 with
    | Ok p =>
      (exists opts, subprocess.args p = docker_test_argv os pre c opts) /\
      launched evs = [subprocess.pid p] /\
      attempts evs = [subprocess.args p] /\
      failed_launches evs = [] /\
      subprocess.pid p = S (length h) /\ length evs = 2%nat
    | Raise _ => launched evs = []
    end.
Proof.
  pose proof (docker_launch_step os pre c h) as Hstep. cbn zeta in *.
  destruct (can_spawn os h (options_argv os)).
  2:{ rewrite Hstep. by eexists [_]. }
  destruct (exit_status os h (options_argv os) =? 0).
  2:{ rewrite Hstep. by eexists [_]. }
  destruct (decode_utf8 _) as [text|].
  2:{ rewrite Hstep. by eexists [_]. }
  destruct (can_spawn os (h ++ _) _); rewrite Hstep.
  - eexists [_; _]. cbn. repeat split; try done. by eexists.
  - by eexists [_; _].
Qed.

(** The fan-out of [docker.run_tests]: nothing is waited upon during it,
    and when it completes there is one handle per partition, each new. *)
Lemma docker_fan_out (pre : list string) (chunks : list (list string)) h :
  let r := mapM (fun c => docker._run_tests_in_docker os c pre) chunks h in
  exists evs,
    r.2 = h ++ evs /\ waited evs = [] /\ exits_of evs = [] /\
    match r.1 with
    | Ok runs =>
      Forall2 (fun c p => exists opts, subprocess.args p = docker_test_argv os pre c opts)
              chunks runs /\
      launched evs = subprocess.pid <$> runs /\
      attempts evs = subprocess.args <$> runs /\
      failed_launches evs = [] /\
      Forall (fun p => (length h < subprocess.pid p < length h + length evs)%nat) runs /\
      NoDup (subprocess.pid <$> runs)
    | Raise _ => (length (launched evs) < length chunks)%nat
    end.
Proof.
  revert h. induction chunks as [|c chunks IH]; intros h; cbn zeta.
  - exists []. cbn. rewrite app_nil_r. repeat split; try done; constructor.
  - cbn [mapM].
    destruct (docker_launch_events pre c h) as (evs1 & H2 & Hw1 & Hx1 & H1).
    cbn zeta in *.
    destruct (docker._run_tests_in_docker os c pre h) as [[p|e] h1] eqn:Hstep;
      cbn [fst snd] in *; subst h1.
    2:{ erewrite bind_raise; [|exact Hstep]. exists evs1. cbn [fst snd].
        rewrite H1. cbn. repeat split; try done. lia. }
    destruct H1 as (Hargs & Hl1 & Ha1 & Hf1 & Hpid & Hlen).
    erewrite bind_ok; [|exact Hstep].
    destruct (IH (h ++ evs1)) as (evs2 & H2 & Hw2 & Hx2 & HI). cbn zeta in *.
    destruct (mapM _ chunks (h ++ evs1)) as [[runs|e] h2] eqn:Hrest;
      cbn [fst snd] in *; subst h2.
    2:{ erewrite bind_raise; [|exact Hrest]. exists (evs1 ++ evs2). cbn [fst snd].
        rewrite <- app_assoc, waited_app, exits_of_app, launched_app, Hw1, Hw2, Hx1, Hx2, Hl1.
        repeat split; try done. cbn. lia. }
    destruct HI as (HF2 & Hl2 & Ha2 & Hf2 & Hrange & Hnd).
    erewrite bind_ok; [|exact Hrest]. unfold ret. cbn [fst snd].
    exists (evs1 ++ evs2).
    rewrite <- app_assoc, waited_app, exits_of_app, launched_app, attempts_app,
      failed_launches_app, Hw1, Hw2, Hx1, Hx2, Hl1, Hl2, Ha1, Ha2, Hf1, Hf2.
    repeat split; try done.
    + by constructor.
    + constructor.
      * rewrite length_app. lia.
      * eapply Forall_impl; [exact Hrange|]. cbn. intros q. rewrite !length_app. lia.
    + cbn. constructor; [|exact Hnd].
      intros Hin. apply list_elem_of_fmap in Hin as (q & Hq & Hin).
      rewrite Forall_forall in Hrange. specialize (Hrange q Hin).
      rewrite length_app in Hrange. lia.
Qed.
End docker_lemmas.

Section run_tests_lemmas.
Context (os : OS).
Context (chunk_into_n : list string -> Z -> outcome (list (list string))).

(** A verdict of [container.run_tests] comes from exactly this history. *)
Lemma container_run_tests_ok (team : string) (T : list string) (n : Z) (b : bool) :
  (container.run_tests os chunk_into_n team T n []).1 = Ok b ->
  exists chunks exits,
    chunk_into_n T n = Ok chunks /\
    length exits = length chunks /\
    b = container.all_zero exits /\
    (container.run_tests os chunk_into_n team T n []).2 =
      [ECheckCall (build_argv os team) (build_env os) (Some 0)]
      ++ launch_events 1 (test_argv os <$> chunks)
      ++ wait_events (seq 1 (length chunks)) exits.
Proof.
  intros Hok.
  pose proof (container_run_tests_cases os chunk_into_n team T n) as Hc.
  cbn zeta in Hc.
  destruct (chunk_into_n T n) as [chunks|e]; [|by rewrite Hc in Hok].
  destruct (can_spawn os [] (build_argv os team)); [|by rewrite Hc in Hok].
  destruct (exit_status os [] (build_argv os team) =? 0) eqn:Hz;
    [|by rewrite Hc in Hok].
  apply Z.eqb_eq in Hz. rewrite Hz in Hc.
  destruct Hc as [(exits & Hl & Hr) | (k & c' & _ & _ & Hr)];
    rewrite Hr in Hok |- *; [|done].
  exists chunks, exits. cbn in Hok. by simplify_eq.
Qed.

(** Every way [docker.run_tests] can end, from an empty history. *)
Lemma docker_run_tests_cases (T pre : list string) (n : Z) :
  let r := docker.run_tests os chunk_into_n T pre n [] in
  match chunk_into_n T n with
  | Raise e => r = (Raise e, [])
  | Ok chunks =>
    exists out_part in_part,
      r.2 = out_part ++ in_part /\
      waited out_part = [] /\ exits_of out_part = [] /\
      attempts in_part = [] /\ launched in_part = [] /\
      match r.1 with
      | Ok z =>
        z = (if docker.all_zero (exits_of in_part) then 0 else 1) /\
        Forall2 (fun c a => exists opts, a = docker_test_argv os pre c opts)
                chunks (attempts out_part) /\
        failed_launches out_part = [] /\
        waited in_part = launched out_part /\
        NoDup (launched out_part) /\
        length (exits_of in_part) = length chunks
      | Raise _ => in_part = [] /\ (length (launched out_part) < length chunks)%nat
      end
  end.
Proof.
  cbn zeta. unfold docker.run_tests.
  destruct (chunk_into_n T n) as [chunks|e]; [|reflexivity].
  erewrite bind_ok; [|reflexivity].
  destruct (docker_fan_out os pre chunks []) as (evs & H2 & Hw & Hx & H1).
  cbn zeta in *. rewrite app_nil_l in H2.
  destruct (mapM _ chunks []) as [[runs|e] h1] eqn:Hfan; cbn [fst snd] in *; subst h1.
  2:{ erewrite bind_raise; [|exact Hfan]. exists evs, []. cbn [fst snd].
      by rewrite app_nil_r. }
  destruct H1 as (HF & Hl & Ha & Hf & _ & Hnd).
  erewrite bind_ok; [|exact Hfan].
  destruct (fan_in os runs evs) as (exits & Hlen & Hwait).
  erewrite bind_ok; [|exact Hwait]. unfold ret. cbn [fst snd].
  exists evs, (wait_events (subprocess.pid <$> runs) exits).
  assert (length exits = length (subprocess.pid <$> runs)) as Hlen'
    by by rewrite length_fmap.
  rewrite attempts_wait_events, launched_wait_events, waited_wait_events,
    exits_wait_events, Hl, Ha, Hf by done.
  repeat split; try done.
  - apply Forall2_fmap_r. eapply Forall2_impl; [exact HF|].
    cbn. intros c p (opts & ->). by exists opts.
  - rewrite Hlen. symmetry. by eapply Forall2_length.
Qed.
End run_tests_lemmas.

(** ** The result reduction *)

Lemma all_zero_Forall (exits : list Z) :
  container.all_zero exits = true <-> Forall (fun c => c = 0) exits.
Proof.
  unfold container.all_zero. induction exits as [|c exits IH]; cbn.
  - split; [constructor|done].
  - rewrite andb_true_iff, Z.eqb_eq, IH. split.
    + intros [-> H]. by constructor.
    + intros H. by inversion H.
Qed.

Lemma all_zero_same (exits : list Z) : docker.all_zero exits = container.all_zero exits.
Proof. reflexivity. Qed.

Lemma all_zero_nonzero (before after : list Z) (c : Z) :
  c <> 0 -> container.all_zero (before ++ c :: after) = false.
Proof.
  intros Hc. apply not_true_is_false. rewrite all_zero_Forall, Forall_app, Forall_cons.
  tauto.
Qed.

Lemma status_zero_iff (b : bool) : (if b then 0 else 1) = 0 <-> b = true.
Proof. by destruct b. Qed.

Lemma status_one_iff (b : bool) : (if b then 0 else 1) = 1 <-> b = false.
Proof. by destruct b. Qed.

(** C1: the overall result is success exactly when every collected exit code
    is 0.  For the reduction itself: [container]'s boolean is [true], and
    [docker]'s status is 0, iff all codes are 0; one non-zero code among any
    others gives failure; no code at all gives success.  For the
    orchestrators: whenever [run_tests] returns a verdict, it is this
    reduction of the exit codes its history collected, and with no partition
    (and, for [container], a build that succeeds) it returns [True], resp. 0. *)
Theorem C1_success_iff_all_exit_codes_zero :
  (forall exits : list Z,
      (container.all_zero exits = true <-> Forall (fun c => c = 0) exits) /\
      ((if docker.all_zero exits then 0 else 1) = 0 <-> Forall (fun c => c = 0) exits)) /\
  (forall (before after : list Z) (c : Z),
      c <> 0 ->
      container.all_zero (before ++ c :: after) = false /\
      (if docker.all_zero (before ++ c :: after) then 0 else 1) = 1) /\
  (container.all_zero [] = true /\ (if docker.all_zero [] then 0 else 1) = 0) /\
  (forall os chunker team T n b,
      (container.run_tests os chunker team T n []).1 = Ok b ->
      (b = true <->
       Forall (fun c => c = 0) (exits_of (container.run_tests os chunker team T n []).2))) /\
  (forall os chunker T pre n z,
      (docker.run_tests os chunker T pre n []).1 = Ok z ->
      (z = 0 <->
       Forall (fun c => c = 0) (exits_of (docker.run_tests os chunker T pre n []).2))
      /\ (z = 0 \/ z = 1)) /\
  (forall os chunker team T n,
      chunker T n = Ok [] ->
      can_spawn os [] (build_argv os team) = true ->
      exit_status os [] (build_argv os team) = 0 ->
      (container.run_tests os chunker team T n []).1 = Ok true) /\
  (forall os chunker T pre n,
      chunker T n = Ok [] ->
      (docker.run_tests os chunker T pre n []).1 = Ok 0).
Proof.
  split; [|split; [|split; [|split; [|split; [|split]]]]].
  - intros exits. split; [apply all_zero_Forall|].
    rewrite status_zero_iff, all_zero_same. apply all_zero_Forall.
  - intros before after c Hc. split; [by apply all_zero_nonzero|].
    rewrite status_one_iff, all_zero_same. by apply all_zero_nonzero.
  - by split.
  - intros os chunker team T n b Hok.
    destruct (container_run_tests_ok os chunker team T n b Hok)
      as (chunks & exits & _ & Hl & -> & ->).
    rewrite !exits_of_app, exits_launch_events, exits_wait_events
      by by rewrite length_seq.
    apply all_zero_Forall.
  - intros os chunker T pre n z Hok.
    pose proof (docker_run_tests_cases os chunker T pre n) as Hc. cbn zeta in Hc.
    destruct (chunker T n) as [chunks|e]; [|by rewrite Hc in Hok].
    destruct Hc as (o & i & H2 & _ & Hx & _ & _ & Hr).
    rewrite Hok in Hr. destruct Hr as (-> & _).
    rewrite H2, exits_of_app, Hx, app_nil_l, status_zero_iff, all_zero_same.
    split; [apply all_zero_Forall|]. destruct (container.all_zero _); auto.
  - intros os chunker team T n Hch Hs Hx.
    unfold container.run_tests. rewrite Hch.
    erewrite bind_ok; [|reflexivity].
    erewrite bind_ok; [reflexivity|].
    unfold container._setup_test_environment, subprocess.check_call.
    fold (build_argv os team). by rewrite Hs, Hx.
  - intros os chunker T pre n Hch. unfold docker.run_tests. by rewrite Hch.
Qed.

(** C9: from the same exit codes the two variants reach the same verdict:
    [container]'s result is [True] exactly when [docker]'s is 0, and [False]
    exactly when it is 1; so for any two runs that returned and collected the
    same exit codes. *)
Theorem C9_variants_same_verdict :
  (forall exits : list Z,
      (container.all_zero exits = true <-> (if docker.all_zero exits then 0 else 1) = 0) /\
      (container.all_zero exits = false <-> (if docker.all_zero exits then 0 else 1) = 1)) /\
  (forall os os' chunker chunker' team T T' pre n n' b z,
      (container.run_tests os chunker team T n []).1 = Ok b ->
      (docker.run_tests os' chunker' T' pre n' []).1 = Ok z ->
      exits_of (container.run_tests os chunker team T n []).2 =
        exits_of (docker.run_tests os' chunker' T' pre n' []).2 ->
      (b = true <-> z = 0) /\ (b = false <-> z = 1)).
Proof.
  split.
  - intros exits. pose proof (all_zero_same exits) as Hs.
    destruct (docker.all_zero exits), (container.all_zero exits); intuition congruence.
  - intros os os' chunker chunker' team T T' pre n n' b z Hb Hz Hsame.
    destruct (container_run_tests_ok os chunker team T n b Hb)
      as (chunks & exits & _ & Hl & -> & Hh).
    rewrite Hh in Hsame.
    rewrite !exits_of_app, exits_launch_events, exits_wait_events in Hsame
      by by rewrite length_seq.
    pose proof (docker_run_tests_cases os' chunker' T' pre n') as Hc. cbn zeta in Hc.
    destruct (chunker' T' n') as [chunks'|e]; [|by rewrite Hc in Hz].
    destruct Hc as (o & i & H2 & _ & Hx & _ & _ & Hr).
    rewrite Hz in Hr. destruct Hr as (-> & _).
    rewrite H2, exits_of_app, Hx in Hsame. cbn in Hsame. subst exits.
    pose proof (all_zero_same (exits_of i)) as Hs.
    destruct (docker.all_zero (exits_of i)), (container.all_zero (exits_of i));
      intuition congruence.
Qed.

(** ** [run_command] *)

Lemma check_output_spec (os : OS) (argv : list string) (h : history) :
  let r := subprocess.check_output os argv h in
  let res := if can_spawn os h argv
             then Some (exit_status os h argv, stdout_of os h argv) else None in
  r.2 = h ++ [ECheckOutput argv res] /\
  (forall b, r.1 = Ok b <-> res = Some (0, b)) /\
  (forall c out, res = Some (c, out) -> c <> 0 -> r.1 = Raise (CalledProcessError c argv)) /\
  (res = None -> r.1 = Raise (OSError argv)).
Proof.
  cbn zeta. unfold subprocess.check_output.
  destruct (can_spawn os h argv); cbn zeta; [|by repeat split].
  destruct (exit_status os h argv =? 0) eqn:Hz; cbn [fst snd].
  - apply Z.eqb_eq in Hz. rewrite Hz. repeat split; try done; intros; by simplify_eq.
  - apply Z.eqb_neq in Hz. repeat split; try done; intros; by simplify_eq.
Qed.

(** C10: [run_command] returns bytes exactly when the child it ran in the
    container exited with code 0, and then they are the child's standard
    output; a child that exits with another code makes it raise
    CalledProcessError (and a child that cannot start, OSError).  Both
    variants: [container.run_command] on a script, [docker.run_command] on a
    command list joined by spaces. *)
Theorem C10_run_command_returns_iff_exit_zero :
  forall (os : OS) (h : history),
    (forall script : string,
        let argv := container._docker_run_bash_script os script in
        let r := container.run_command os script h in
        let res := if can_spawn os h argv
                   then Some (exit_status os h argv, stdout_of os h argv) else None in
        r.2 = h ++ [ECheckOutput argv res] /\
        (forall b, r.1 = Ok b <-> res = Some (0, b)) /\
        (forall c out, res = Some (c, out) -> c <> 0 ->
                       r.1 = Raise (CalledProcessError c argv)) /\
        (res = None -> r.1 = Raise (OSError argv))) /\
    (forall command : list string,
        let argv := docker._get_docker_run_command os
                      ++ ["/bin/bash"; "-ic"; join " " command] in
        let r := docker.run_command os command h in
        let res := if can_spawn os h argv
                   then Some (exit_status os h argv, stdout_of os h argv) else None in
        r.2 = h ++ [ECheckOutput argv res] /\
        (forall b, r.1 = Ok b <-> res = Some (0, b)) /\
        (forall c out, res = Some (c, out) -> c <> 0 ->
                       r.1 = Raise (CalledProcessError c argv)) /\
        (res = None -> r.1 = Raise (OSError argv))).
Proof.
  intros os h. split.
  - intros script. apply check_output_spec.
  - intros command. apply check_output_spec.
Qed.

(** ** Failures before the fan-out *)

(** C5: when the image build of [_setup_test_environment] exits non-zero,
    [container.run_tests] raises that CalledProcessError at once; the history
    holds the build and nothing else: no container was launched for any
    partition and nothing was waited upon. *)
Theorem C5_build_failure_aborts_before_launch :
  forall (os : OS) (chunker : list string -> Z -> outcome (list (list string)))
         (team : string) (T : list string) (n : Z) (chunks : list (list string)),
    chunker T n = Ok chunks ->
    can_spawn os [] (build_argv os team) = true ->
    exit_status os [] (build_argv os team) <> 0 ->
    let r := container.run_tests os chunker team T n [] in
    let code := exit_status os [] (build_argv os team) in
    r = (Raise (CalledProcessError code (build_argv os team)),
         [ECheckCall (build_argv os team) (build_env os) (Some code)]) /\
    attempts r.2 = [] /\ launched r.2 = [] /\ waited r.2 = [].
Proof.
  intros os chunker team T n chunks Hch Hs Hx. cbn zeta.
  pose proof (container_run_tests_cases os chunker team T n) as Hc. cbn zeta in Hc.
  rewrite Hch, Hs in Hc. apply Z.eqb_neq in Hx. rewrite Hx in Hc.
  by rewrite Hc.
Qed.

Lemma C5_build_failure_witness :
  let os := scripted_os (Some "4f2a") [] 2 [] (fun _ => 0) in
  let r := container.run_tests os utils.chunk_into_n "core" ["//a"; "//b"; "//c"] 2 [] in
  r = (Raise (CalledProcessError 2 (build_argv os "core")),
       [ECheckCall (build_argv os "core") (build_env os) (Some 2)]) /\
  attempts r.2 = [] /\ launched r.2 = [] /\ waited r.2 = [].
Proof.
  exact (C5_build_failure_aborts_before_launch
           (scripted_os (Some "4f2a") [] 2 [] (fun _ => 0)) utils.chunk_into_n
           "core" ["//a"; "//b"; "//c"] 2 [["//a"; "//b"]; ["//c"]]
           eq_refl eq_refl ltac:(discriminate)).
Defined.

(** C6: with a parallelism [n <= 0] both orchestrators raise the
    Partitioner's ConfigError before anything else happens: the history stays
    empty, so there was neither an image build nor a launch.  The
    Partitioner is the first thing [run_tests] calls: whatever it raises
    leaves an empty history. *)
Theorem C6_non_positive_parallelism_fails_fast :
  forall (os : OS) (team : string) (T pre : list string) (n : Z),
    n <= 0 ->
    container.run_tests os utils.chunk_into_n team T n [] = (Raise ConfigError, []) /\
    docker.run_tests os utils.chunk_into_n T pre n [] = (Raise ConfigError, []) /\
    (forall chunker e,
        chunker T n = Raise e ->
        container.run_tests os chunker team T n [] = (Raise e, []) /\
        docker.run_tests os chunker T pre n [] = (Raise e, [])).
Proof.
  intros os team T pre n Hn.
  assert (forall chunker e,
             chunker T n = Raise e ->
             container.run_tests os chunker team T n [] = (Raise e, []) /\
             docker.run_tests os chunker T pre n [] = (Raise e, [])) as Hfirst.
  { intros chunker e He.
    unfold container.run_tests, docker.run_tests, bind, lift. by rewrite He. }
  assert (utils.chunk_into_n T n = Raise ConfigError) as Hcfg.
  { unfold utils.chunk_into_n. apply Z.leb_le in Hn. by rewrite Hn. }
  destruct (Hfirst utils.chunk_into_n ConfigError Hcfg) as (Hc & Hd). auto.
Qed.

Lemma C6_non_positive_parallelism_witness :
  let os := scripted_os None [] 0 [] (fun _ => 0) in
  container.run_tests os utils.chunk_into_n "core" ["//a"; "//b"] 0 [] = (Raise ConfigError, []) /\
  docker.run_tests os utils.chunk_into_n ["//a"; "//b"] ["true"] 0 [] = (Raise ConfigError, []) /\
  (forall chunker e,
      chunker ["//a"; "//b"] 0 = Raise e ->
      container.run_tests os chunker "core" ["//a"; "//b"] 0 [] = (Raise e, []) /\
      docker.run_tests os chunker ["//a"; "//b"] ["true"] 0 [] = (Raise e, [])).
Proof.
  exact (C6_non_positive_parallelism_fails_fast
           (scripted_os None [] 0 [] (fun _ => 0)) "core" ["//a"; "//b"] ["true"] 0
           ltac:(lia)).
Defined.

(** ** The image reference *)

(** C8: the image the Environment Preparer builds and tags (the value of
    [-t] in the build command) is the image every Group Runner container is
    started from (the argument after the [docker run] options), in both
    variants: the registry host, [/], the repository, [:], and the tag made
    of the fixed prefix and the formatted value of BUILDKITE_COMMIT (the
    commit itself when it is set). *)
Theorem C8_built_image_is_run_image :
  forall (os : OS) (team : string) (chunk pre opts : list string) (h : history),
    let image :=
      "029272617770.dkr.ecr.us-west-2.amazonaws.com/ci_base_images:oss-ci-build_"
      +:+ format_opt (environ os !! "BUILDKITE_COMMIT") in
    (exists r, (container._setup_test_environment os team h).2 =
               h ++ [ECheckCall (build_argv os team) (build_env os) r]) /\
    build_argv os team !! 6%nat = Some "-t" /\
    build_argv os team !! 7%nat = Some image /\
    (exists r, (container._run_tests_in_docker os chunk h).2 =
               h ++ [EPopen (test_argv os chunk) r]) /\
    take 7 (test_argv os chunk) =
      ["docker"; "run"; "-i"; "--rm"; "--workdir"; "/ray"; "--shm-size=2.5gb"] /\
    test_argv os chunk !! 7%nat = Some image /\
    docker_test_argv os pre chunk opts !! 7%nat = Some image /\
    container._get_docker_image os = image /\
    docker._get_docker_image os = image /\
    (forall commit, environ os !! "BUILDKITE_COMMIT" = Some commit ->
                    image = "029272617770.dkr.ecr.us-west-2.amazonaws.com/ci_base_images:oss-ci-build_"
                            +:+ commit).
Proof.
  intros os team chunk pre opts h. cbn zeta. repeat split; try reflexivity.
  - unfold container._setup_test_environment, subprocess.check_call.
    fold (build_argv os team). fold (build_env os).
    destruct (can_spawn os h (build_argv os team)); by eexists.
  - unfold container._run_tests_in_docker, subprocess.Popen.
    fold (test_argv os chunk).
    destruct (can_spawn os h (test_argv os chunk)); by eexists.
  - by intros commit ->.
Qed.

(** ** Launch failures *)

(** C3 does not hold as the specification states it: with three partitions
    and a second launch that raises, [container.run_tests] returns no
    verdict, never launches the third partition and never waits on the first
    handle. *)
Lemma C3_launch_error_not_folded :
  ~ launch_error_folded second_launch_refused [["//a"]; ["//b"]; ["//c"]]
      (container.run_tests second_launch_refused utils.chunk_into_n "core"
         ["//a"; "//b"; "//c"] 3 []).
Proof.
  intros Hfold.
  assert (failed_launches
            (container.run_tests second_launch_refused utils.chunk_into_n "core"
               ["//a"; "//b"; "//c"] 3 []).2 <> []) as Hfailed
    by (vm_compute; discriminate).
  destruct (Hfold Hfailed) as (Hverdict & _). vm_compute in Hverdict. discriminate.
Qed.

Example second_launch_refused_run :
  let os := second_launch_refused in
  container.run_tests os utils.chunk_into_n "core" ["//a"; "//b"; "//c"] 3 [] =
  (Raise (OSError (test_argv os ["//b"])),
   [ ECheckCall (build_argv os "core") (build_env os) (Some 0);
     EPopen (test_argv os ["//a"]) (Some 1%nat);
     EPopen (test_argv os ["//b"]) None ]).
Proof. vm_compute. reflexivity. Qed.

(** C3, as the code has it: a launch that raises ends [container.run_tests]
    with that OSError: no verdict is returned, the partitions after the
    failing one are never attempted, and the handles obtained before it (1
    to [k]) are not waited upon. *)
Theorem C3_launch_error_propagates :
  forall (os : OS) (chunker : list string -> Z -> outcome (list (list string)))
         (team : string) (T : list string) (n : Z) (a : list string),
    let r := container.run_tests os chunker team T n [] in
    a ∈ failed_launches r.2 ->
    r.1 = Raise (OSError a) /\
    waited r.2 = [] /\
    exists chunks k c,
      chunker T n = Ok chunks /\ chunks !! k = Some c /\ a = test_argv os c /\
      attempts r.2 = test_argv os <$> take (S k) chunks /\
      launched r.2 = seq 1 k.
Proof.
  intros os chunker team T n a. cbn zeta. intros Hin.
  pose proof (container_run_tests_cases os chunker team T n) as Hc. cbn zeta in Hc.
  destruct (chunker T n) as [chunks|e].
  2:{ rewrite Hc in Hin. by apply elem_of_nil in Hin. }
  destruct (can_spawn os [] (build_argv os team)).
  2:{ rewrite Hc in Hin. by apply elem_of_nil in Hin. }
  destruct (exit_status os [] (build_argv os team) =? 0).
  2:{ rewrite Hc in Hin. by apply elem_of_nil in Hin. }
  destruct Hc as [(exits & Hl & Hr) | (k & c & Hk & _ & Hr)]; rewrite Hr in Hin |- *;
    cbn [fst snd] in *.
  - rewrite !failed_launches_app, failed_launch_events, failed_wait_events in Hin.
    by apply elem_of_nil in Hin.
  - rewrite !failed_launches_app, failed_launch_events in Hin. cbn in Hin.
    apply list_elem_of_singleton in Hin. subst a.
    rewrite !waited_app, waited_launch_events.
    rewrite !attempts_app, attempts_launch_events.
    rewrite !launched_app, launched_launch_events.
    repeat split; try done.
    exists chunks, k, c. repeat split; try done.
    + erewrite take_S_r by exact Hk. by rewrite fmap_app.
    + cbn. rewrite app_nil_r, length_fmap, length_take.
      apply lookup_lt_Some in Hk. f_equal. lia.
Qed.

Lemma C3_launch_error_witness :
  let os := second_launch_refused in
  let r := container.run_tests os utils.chunk_into_n "core" ["//a"; "//b"; "//c"] 3 [] in
  r.1 = Raise (OSError (test_argv os ["//b"])) /\
  waited r.2 = [] /\
  exists chunks k c,
    utils.chunk_into_n ["//a"; "//b"; "//c"] 3 = Ok chunks /\
    chunks !! k = Some c /\ test_argv os ["//b"] = test_argv os c /\
    attempts r.2 = test_argv os <$> take (S k) chunks /\
    launched r.2 = seq 1 k.
Proof.
  apply (C3_launch_error_propagates second_launch_refused utils.chunk_into_n "core"
           ["//a"; "//b"; "//c"] 3 (test_argv second_launch_refused ["//b"])).
  vm_compute. apply list_elem_of_here.
Defined.

(** ** Fan-out, then fan-in *)

Lemma waited_exits_length (h : history) : length (waited h) = length (exits_of h).
Proof.
  induction h as [|e h IH]; [done|].
  destruct e; cbn; try exact IH. unfold waited, exits_of in IH. by rewrite IH.
Qed.

Lemma NoDup_seq (s k : nat) : NoDup (seq s k).
Proof.
  revert s. induction k as [|k IH]; intros s; cbn; constructor; [|apply IH].
  rewrite list_elem_of_In, in_seq. lia.
Qed.

Lemma docker_fan_out_total (os : OS) (pre : list string) (chunks : list (list string))
    (h : history) :
  cooperative os ->
  exists runs, (mapM (fun c => docker._run_tests_in_docker os c pre) chunks h).1 = Ok runs.
Proof.
  intros (Hspawn & Hexit & Hutf). revert h.
  induction chunks as [|c chunks IH]; intros h; [by eexists|].
  cbn [mapM].
  pose proof (docker_launch_step os pre c h) as Hstep. cbn zeta in Hstep.
  rewrite Hspawn, Hexit in Hstep. cbn in Hstep.
  unfold decode_utf8 in Hstep. rewrite Hutf, Hspawn in Hstep.
  erewrite bind_ok; [|exact Hstep].
  destruct (IH (h ++ [ECheckOutput (options_argv os)
                        (Some (0, stdout_of os h (options_argv os)));
                      EPopen (docker_test_argv os pre c
                                (split (String.string_of_list_byte
                                          (stdout_of os h (options_argv os)))))
                             (Some (S (length h)))])) as (runs & Hruns).
  destruct (mapM _ chunks _) as [[runs'|e] h'] eqn:Hrest; [|done].
  erewrite bind_ok; [|exact Hrest]. by eexists.
Qed.

(** C4: both orchestrators fan out, then fan in.  In every history of
    [run_tests] all launches come before all waits; and when [run_tests]
    returns a verdict, the Group Runner was invoked once per partition, in
    order and with that partition's command, no launch failed, and the
    handles waited upon are exactly the handles obtained, each of them once.
    Under a cooperative operating system [run_tests] does return. *)
Theorem C4_fan_out_then_fan_in :
  forall (os : OS) (chunker : list string -> Z -> outcome (list (list string)))
         (team : string) (T pre : list string) (n : Z),
    let rc := container.run_tests os chunker team T n [] in
    let rd := docker.run_tests os chunker T pre n [] in
    fan_out_then_fan_in rc.2 /\
    fan_out_then_fan_in rd.2 /\
    (forall b, rc.1 = Ok b ->
               exists chunks,
                 chunker T n = Ok chunks /\
                 attempts rc.2 = test_argv os <$> chunks /\
                 failed_launches rc.2 = [] /\
                 length (launched rc.2) = length chunks /\
                 every_handle_waited_once rc.2) /\
    (forall z, rd.1 = Ok z ->
               exists chunks,
                 chunker T n = Ok chunks /\
                 Forall2 (fun c a => exists opts, a = docker_test_argv os pre c opts)
                         chunks (attempts rd.2) /\
                 failed_launches rd.2 = [] /\
                 length (launched rd.2) = length chunks /\
                 every_handle_waited_once rd.2) /\
    (cooperative os ->
     forall chunks, chunker T n = Ok chunks ->
                    (exists b, rc.1 = Ok b) /\ (exists z, rd.1 = Ok z)).
Proof.
  intros os chunker team T pre n. cbn zeta.
  pose proof (container_run_tests_cases os chunker team T n) as Hc.
  pose proof (docker_run_tests_cases os chunker T pre n) as Hd.
  cbn zeta in Hc, Hd.
  split; [|split; [|split; [|split]]].
  - destruct (chunker T n) as [chunks|e]; [|rewrite Hc; by exists [], []].
    destruct (can_spawn os [] (build_argv os team)); [|rewrite Hc; by eexists [_], []].
    destruct (exit_status os [] (build_argv os team) =? 0);
      [|rewrite Hc; by eexists [_], []].
    destruct Hc as [(exits & Hl & ->) | (k & c & Hk & _ & ->)]; cbn [snd].
    + eexists (_ :: launch_events 1 (test_argv os <$> chunks)), _.
      split; [reflexivity|]. split; [apply (waited_launch_events 1)|].
      apply attempts_wait_events.
    + eexists _, []. split; [by rewrite app_nil_r|]. split; [|done].
      rewrite !waited_app, waited_launch_events. done.
  - destruct (chunker T n) as [chunks|e]; [|rewrite Hd; by exists [], []].
    destruct Hd as (o & i & H2 & Hw & _ & Ha & _ & _). by exists o, i.
  - intros b Hok.
    destruct (container_run_tests_ok os chunker team T n b Hok)
      as (chunks & exits & Hch & Hl & _ & ->).
    exists chunks. split; [exact Hch|]. unfold every_handle_waited_once.
    rewrite !attempts_app, !failed_launches_app, !launched_app, !waited_app.
    rewrite attempts_launch_events, attempts_wait_events, failed_launch_events,
      failed_wait_events, launched_launch_events, launched_wait_events,
      waited_launch_events, waited_wait_events by by rewrite length_seq.
    cbn. rewrite !app_nil_r, length_fmap, length_seq.
    repeat split; try done. apply NoDup_seq.
  - intros z Hok.
    destruct (chunker T n) as [chunks|e]; [|by rewrite Hd in Hok].
    destruct Hd as (o & i & H2 & Hw & Hx & Ha & Hl & Hr).
    rewrite Hok in Hr. destruct Hr as (_ & HF & Hf & Hwl & Hnd & Hlen).
    exists chunks. split; [done|]. unfold every_handle_waited_once.
    assert (failed_launches i = []) as Hfi.
    { clear -Ha. induction i as [|[] i IH]; try done; cbn in *; auto. }
    rewrite H2, attempts_app, failed_launches_app, launched_app, waited_app,
      Ha, Hl, Hw, Hf, Hfi, !app_nil_r, app_nil_l.
    repeat split; try done.
    by rewrite <- Hwl, waited_exits_length.
  - intros (Hspawn & Hexit & Hutf) chunks Hch. rewrite Hch in Hc. split.
    + rewrite Hspawn, Hexit, Z.eqb_refl in Hc.
      destruct Hc as [(exits & _ & ->) | (k & c & _ & Hno & _)]; [by eexists|].
      by rewrite Hspawn in Hno.
    + unfold docker.run_tests. rewrite Hch. erewrite bind_ok; [|reflexivity].
      destruct (docker_fan_out_total os pre chunks [] (conj Hspawn (conj Hexit Hutf)))
        as (runs & Hruns).
      destruct (mapM _ chunks []) as [[runs'|e] h'] eqn:Hfan; [|done].
      erewrite bind_ok; [|exact Hfan].
      destruct (fan_in os runs' h') as (exits & _ & Hwait).
      erewrite bind_ok; [|exact Hwait]. by eexists.
Qed.

(** ** The Partitioner *)

Section chunk_lemmas.
Local Open Scope nat_scope.
Implicit Types (l : list string) (sizes : list nat).

Lemma cut_length sizes l : length (utils.cut sizes l) = length sizes.
Proof. revert l. induction sizes as [|k sizes IH]; intros l; cbn; [done|]. by rewrite IH. Qed.

Lemma cut_lookup sizes l i :
  utils.cut sizes l !! i =
  (fun k => take k (drop (sum_list (take i sizes)) l)) <$> sizes !! i.
Proof.
  revert l i. induction sizes as [|k sizes IH]; intros l [|i]; cbn; try done.
  rewrite IH. destruct (sizes !! i); cbn; [|done]. by rewrite drop_drop.
Qed.

Lemma cut_concat sizes l : concat (utils.cut sizes l) = take (sum_list sizes) l.
Proof.
  revert l. induction sizes as [|k sizes IH]; intros l; cbn; [by rewrite take_0|].
  rewrite IH. by rewrite take_take_drop.
Qed.

Lemma cut_sizes sizes l :
  sum_list sizes <= length l -> length <$> utils.cut sizes l = sizes.
Proof.
  revert l. induction sizes as [|k sizes IH]; intros l Hl; cbn in *; [done|].
  rewrite IH by (rewrite length_drop; lia). f_equal. rewrite length_take. lia.
Qed.

(** Dropping the empty slices is cutting by the non-zero sizes. *)
Lemma filter_cut sizes l :
  sum_list sizes <= length l ->
  filter (fun c => c <> []) (utils.cut sizes l) =
  utils.cut (filter (fun k => k <> 0) sizes) l.
Proof.
  revert l. induction sizes as [|k sizes IH]; intros l Hl; [done|].
  cbn in Hl. cbn [utils.cut]. destruct k as [|k].
  - rewrite take_0, drop_0.
    rewrite filter_cons_False by tauto.
    rewrite (filter_cons_False _ 0) by tauto.
    apply IH. lia.
  - rewrite filter_cons_True.
    2:{ destruct l; cbn in *; [lia|done]. }
    rewrite (filter_cons_True _ (S k)) by done.
    cbn [utils.cut]. f_equal. apply IH. rewrite length_drop. lia.
Qed.

Lemma filter_replicate_nonzero (k x : nat) :
  filter (fun k => k <> 0) (replicate k x) = if decide (x = 0) then [] else replicate k x.
Proof.
  induction k as [|k IH]; [by destruct (decide _)|].
  cbn [replicate]. destruct (decide (x = 0)) as [->|Hx].
  - rewrite filter_cons_False by tauto. exact IH.
  - rewrite filter_cons_True by done. by rewrite IH.
Qed.

(** The sizes that survive: still [q+1] for the first [r], and [q] up to
    [min n len] partitions in all. *)
Lemma filter_balanced_sizes (len n : nat) :
  0 < n ->
  filter (fun k => k <> 0) (utils.balanced_sizes len n) =
  replicate (len mod n) (S (len / n)) ++ replicate (n `min` len - len mod n) (len / n).
Proof.
  intros Hn. unfold utils.balanced_sizes.
  rewrite filter_app, !filter_replicate_nonzero.
  destruct (decide (S (len / n) = 0)) as [|_]; [done|]. f_equal.
  destruct (decide (len / n = 0)) as [Hq|Hq].
  - apply Nat.div_small_iff in Hq; [|lia].
    rewrite Nat.mod_small by done.
    by replace (n `min` len - len) with 0 by lia.
  - assert (n <= len).
    { destruct (decide (n <= len)); [done|].
      destruct Hq. apply Nat.div_small. lia. }
    by replace (n `min` len) with n by lia.
Qed.

Lemma balanced_sum (len n : nat) :
  0 < n ->
  sum_list (replicate (len mod n) (S (len / n))
            ++ replicate (n `min` len - len mod n) (len / n)) = len.
Proof.
  intros Hn. rewrite sum_list_with_app, !sum_list_replicate.
  pose proof (Nat.div_mod_eq len n) as Hdiv.
  pose proof (Nat.mod_upper_bound len n ltac:(lia)) as Hr.
  destruct (decide (len / n = 0)) as [Hq|Hq].
  - rewrite Hq in *. lia.
  - assert (n <= len).
    { destruct (decide (n <= len)); [done|].
      destruct Hq. apply Nat.div_small. lia. }
    replace (n `min` len) with n by lia. nia.
Qed.

Lemma balanced_prefix_sum (r j q i : nat) :
  i <= r + j ->
  sum_list (take i (replicate r (S q) ++ replicate j q)) = i * q + i `min` r.
Proof.
  intros Hi. rewrite take_app, length_replicate, !take_replicate, sum_list_with_app,
    !sum_list_replicate.
  destruct (decide (i <= r)).
  - replace (i `min` r) with i by lia. replace ((i - r) `min` j) with 0 by lia. lia.
  - replace (i `min` r) with r by lia. replace ((i - r) `min` j) with (i - r) by lia. nia.
Qed.

Lemma balanced_lookup (r j q i : nat) :
  i < r + j ->
  (replicate r (S q) ++ replicate j q) !! i = Some (if i <? r then S q else q).
Proof.
  intros Hi. destruct (Nat.ltb_spec i r).
  - rewrite lookup_app_l by by rewrite length_replicate.
    by apply lookup_replicate_2.
  - rewrite lookup_app_r by by rewrite length_replicate.
    rewrite length_replicate. apply lookup_replicate_2. lia.
Qed.
End chunk_lemmas.

Section chunk_into_n_lemmas.
Local Open Scope nat_scope.

Lemma balanced_sizes_sum (len n : nat) :
  0 < n -> sum_list (utils.balanced_sizes len n) = len.
Proof.
  intros Hn. unfold utils.balanced_sizes.
  rewrite sum_list_with_app, !sum_list_replicate.
  pose proof (Nat.div_mod_eq len n) as Hdiv.
  pose proof (Nat.mod_upper_bound len n ltac:(lia)) as Hr. nia.
Qed.

(** For a positive [n], [chunk_into_n] is the cut by the surviving sizes. *)
Lemma chunk_into_n_cut (T : list string) (n : Z) :
  (0 < n)%Z ->
  utils.chunk_into_n T n =
  Ok (utils.cut (replicate (length T mod Z.to_nat n) (S (length T / Z.to_nat n))
                 ++ replicate (Z.to_nat n `min` length T - length T mod Z.to_nat n)
                              (length T / Z.to_nat n)) T).
Proof.
  intros Hn. unfold utils.chunk_into_n.
  destruct (Z.leb_spec n 0) as [|_]; [lia|]. f_equal.
  rewrite filter_cut by (rewrite balanced_sizes_sum; lia).
  rewrite filter_balanced_sizes by lia. done.
Qed.

(** A slice of a cut that fits has its size, and is where the earlier
    sizes put it. *)
Lemma cut_slice (sizes : list nat) (l : list string) (i : nat) (p : list string) :
  sum_list sizes <= length l ->
  utils.cut sizes l !! i = Some p ->
  sizes !! i = Some (length p) /\
  p = take (length p) (drop (sum_list (take i sizes)) l).
Proof.
  intros Hfit Hp.
  pose proof (cut_sizes sizes l Hfit) as Hs.
  apply (f_equal (fun x => x !! i)) in Hs.
  rewrite list_lookup_fmap, Hp in Hs. cbn in Hs. split; [done|].
  rewrite cut_lookup, <- Hs in Hp. cbn in Hp. by simplify_eq.
Qed.
End chunk_into_n_lemmas.

(** C2: for a positive [n], [chunk_into_n] returns [min n (len T)]
    partitions, none of them empty, whose concatenation is [T]; with
    [len T = q*n + r] and [0 <= r < n], partition [i] has [q+1] items when
    [i < r] and [q] otherwise, and is the slice of [T] that starts after the
    earlier ones (at [i*q + min i r]); any two sizes differ by at most 1,
    and an empty [T] gives no partition. *)
Theorem C2_chunk_into_n_balanced_cover :
  forall (T : list string) (n : Z),
    0 < n ->
    let m := Z.to_nat n in
    let q := (length T / m)%nat in
    let r := (length T mod m)%nat in
    exists parts,
      utils.chunk_into_n T n = Ok parts /\
      length parts = (m `min` length T)%nat /\
      Forall (fun p => p <> []) parts /\
      concat parts = T /\
      (length T = q * m + r /\ r < m)%nat /\
      (forall i p, parts !! i = Some p ->
                   length p = (if (i <? r)%nat then S q else q) /\
                   p = take (length p) (drop (i * q + i `min` r)%nat T)) /\
      (forall p p', p ∈ parts -> p' ∈ parts -> (length p <= S (length p'))%nat) /\
      (T = [] -> parts = []).
Proof.
  intros T n Hn m q r.
  assert (0 < m)%nat as Hm by (subst m; lia).
  pose proof (Nat.div_mod_eq (length T) m) as Hdiv.
  pose proof (Nat.mod_upper_bound (length T) m ltac:(lia)) as Hr.
  pose proof (Nat.Div0.mod_le (length T) m) as Hrle.
  fold q r in Hdiv, Hr, Hrle.
  set (sizes := replicate r (S q) ++ replicate (m `min` length T - r)%nat q).
  assert (sum_list sizes = length T) as Hsum by by apply balanced_sum.
  assert (length sizes = (m `min` length T)%nat) as Hlen.
  { subst sizes. rewrite length_app, !length_replicate. lia. }
  assert (forall i p, utils.cut sizes T !! i = Some p ->
                      length p = (if (i <? r)%nat then S q else q) /\
                      p = take (length p) (drop (i * q + i `min` r)%nat T)) as Hslice.
  { intros i p Hp.
    destruct (cut_slice sizes T i p ltac:(lia) Hp) as (Hsz & Hpos).
    assert (i < length sizes)%nat as Hi by by eapply lookup_lt_Some.
    subst sizes. rewrite balanced_lookup in Hsz by lia.
    rewrite balanced_prefix_sum in Hpos by lia. split; [congruence|done]. }
  exists (utils.cut sizes T). split; [by apply chunk_into_n_cut|].
  split; [by rewrite cut_length|].
  split; [|split; [|split; [|split; [|split]]]].
  - apply Forall_lookup. intros i p Hp.
    destruct (Hslice i p Hp) as (Hsz & _).
    assert (i < m `min` length T)%nat as Hi.
    { rewrite <- Hlen, <- (cut_length sizes T). by eapply lookup_lt_Some. }
    intros ->. cbn [length] in Hsz. revert Hsz.
    destruct (Nat.ltb_spec i r); intros Hsz; [lia|].
    assert (q = 0)%nat as Hq by lia. rewrite Hq in Hdiv. lia.
  - rewrite cut_concat, Hsum. by apply take_ge.
  - lia.
  - exact Hslice.
  - intros p p' Hp Hp'.
    apply list_elem_of_lookup in Hp as (i & Hp), Hp' as (i' & Hp').
    destruct (Hslice i p Hp) as (-> & _), (Hslice i' p' Hp') as (-> & _).
    destruct (i <? r)%nat, (i' <? r)%nat; lia.
  - intros ->. apply nil_length_inv. rewrite cut_length, Hlen. cbn. lia.
Qed.

Lemma C2_chunk_into_n_witness :
  let T := ["t1"; "t2"; "t3"; "t4"; "t5"; "t6"; "t7"; "t8"; "t9"; "t10"] in
  exists parts,
    utils.chunk_into_n T 3 = Ok parts /\
    length parts = 3%nat /\
    Forall (fun p => p <> []) parts /\
    concat parts = T /\
    (10 = 3 * 3 + 1 /\ 1 < 3)%nat /\
    (forall i p, parts !! i = Some p ->
                 length p = (if (i <? 1)%nat then 4%nat else 3%nat) /\
                 p = take (length p) (drop (i * 3 + i `min` 1)%nat T)) /\
    (forall p p', p ∈ parts -> p' ∈ parts -> (length p <= S (length p'))%nat) /\
    (T = [] -> parts = []).
Proof.
  exact (C2_chunk_into_n_balanced_cover
           ["t1"; "t2"; "t3"; "t4"; "t5"; "t6"; "t7"; "t8"; "t9"; "t10"] 3 ltac:(lia)).
Defined.

Example chunk_into_n_scenario_A :
  utils.chunk_into_n ["t1"; "t2"; "t3"; "t4"; "t5"; "t6"; "t7"; "t8"; "t9"; "t10"] 3 =
  Ok [["t1"; "t2"; "t3"; "t4"]; ["t5"; "t6"; "t7"]; ["t8"; "t9"; "t10"]].
Proof. reflexivity. Qed.

Example chunk_into_n_more_chunks_than_targets :
  utils.chunk_into_n ["t1"; "t2"] 5 = Ok [["t1"]; ["t2"]].
Proof. reflexivity. Qed.

(** ** The generated shell command *)

Lemma string_app_nil_r (s : string) : s +:+ "" = s.
Proof.
  induction s as [|a s IH]; [reflexivity|].
  change (String a (s +:+ "") = String a s). by rewrite IH.
Qed.

(** Joining a list that ends with [x]: every earlier element is followed by
    the separator. *)
Lemma join_snoc (sep : string) (pre : list string) (x : string) :
  join sep (pre ++ [x]) = foldr (fun c acc => c +:+ sep +:+ acc) x pre.
Proof.
  induction pre as [|c pre IH]; [reflexivity|].
  cbn [foldr]. rewrite <- IH. by destruct pre.
Qed.

(** Joining a list that starts with [a]: every later element is preceded by
    the separator. *)
Lemma join_cons (sep a : string) (ts : list string) :
  join sep (a :: ts) = a +:+ foldr (fun t acc => sep +:+ t +:+ acc) "" ts.
Proof.
  revert a. induction ts as [|t ts IH]; intros a.
  - cbn [foldr]. by rewrite string_app_nil_r.
  - cbn [foldr]. rewrite <- IH. reflexivity.
Qed.

Lemma bazel_command_join (ts : list string) :
  join " " (["bazel"; "test"; "--config=ci"] ++ ts) =
  "bazel test --config=ci" +:+ foldr (fun t acc => " " +:+ t +:+ acc) "" ts.
Proof.
  change (join " " (["bazel"; "test"; "--config=ci"] ++ ts))
    with ("bazel test " +:+ join " " ("--config=ci" :: ts)).
  by rewrite join_cons.
Qed.

(** C7: the Group Runner makes one shell command and runs it with
    [/bin/bash -ic] (resp. [-ice]) in a container started by [docker run -i
    --rm --workdir /ray --shm-size=2.5gb <image>].  In [docker.py] the
    command is every pre-run command followed by a line feed, then one
    [bazel test --config=ci] invocation with every target of the partition
    (and then the exported options), each preceded by a space; a launch
    happens at most once per call, after the export script succeeded, and it
    does happen under a cooperative operating system.  In [container.py]
    there are no pre-run commands and the command is the invocation alone. *)
Theorem C7_group_runner_command :
  forall (os : OS) (pre chunk : list string) (h : history),
    (let r := docker._run_tests_in_docker os chunk pre h in
     exists evs,
       r.2 = h ++ evs /\
       (forall argv res,
           EPopen argv res ∈ evs ->
           exists out text command,
             ECheckOutput (options_argv os) (Some (0, out)) ∈ evs /\
             decode_utf8 out = Some text /\
             attempts evs = [argv] /\
             argv = [ "docker"; "run"; "-i"; "--rm"; "--workdir"; "/ray";
                      "--shm-size=2.5gb"; docker._get_docker_image os;
                      "/bin/bash"; "-ic"; command ] /\
             command =
               foldr (fun c acc => c +:+ docker.LF +:+ acc)
                     ("bazel test --config=ci"
                      +:+ foldr (fun t acc => " " +:+ t +:+ acc) "" (chunk ++ split text))
                     pre) /\
       (cooperative os ->
        exists p, r.1 = Ok p /\
                  EPopen (subprocess.args p) (Some (subprocess.pid p)) ∈ evs)) /\
    (let r := container._run_tests_in_docker os chunk h in
     exists res,
       r.2 = h ++ [EPopen [ "docker"; "run"; "-i"; "--rm"; "--workdir"; "/ray";
                            "--shm-size=2.5gb"; container._get_docker_image os;
                            "/bin/bash"; "-ice";
                            "bazel test --config=ci " +:+ join " " chunk ] res] /\
       (r.1 = match res with
              | Some p => Ok {| subprocess.pid := p;
                                subprocess.args := test_argv os chunk |}
              | None => Raise (OSError (test_argv os chunk))
              end)).
Proof.
  intros os pre chunk h. split; cbn zeta.
  - pose proof (docker_launch_step os pre chunk h) as Hstep. cbn zeta in Hstep.
    assert (forall opts,
               docker_test_argv os pre chunk opts =
               [ "docker"; "run"; "-i"; "--rm"; "--workdir"; "/ray";
                 "--shm-size=2.5gb"; docker._get_docker_image os; "/bin/bash"; "-ic";
                 foldr (fun c acc => c +:+ docker.LF +:+ acc)
                       ("bazel test --config=ci"
                        +:+ foldr (fun t acc => " " +:+ t +:+ acc) "" (chunk ++ opts))
                       pre ]) as Hargv.
    { intros opts. unfold docker_test_argv.
      by rewrite join_snoc, bazel_command_join. }
    destruct (can_spawn os h (options_argv os)) eqn:Hs.
    2:{ rewrite Hstep. eexists [_]. split; [done|]. split.
        - intros argv res Hin. apply list_elem_of_singleton in Hin. done.
        - intros (Hspawn & _). by rewrite Hspawn in Hs. }
    destruct (exit_status os h (options_argv os) =? 0) eqn:Hz.
    2:{ rewrite Hstep. eexists [_]. split; [done|]. split.
        - intros argv res Hin. apply list_elem_of_singleton in Hin. done.
        - intros (_ & Hexit & _). by rewrite Hexit in Hz. }
    apply Z.eqb_eq in Hz. rewrite Hz in Hstep.
    destruct (decode_utf8 (stdout_of os h (options_argv os))) as [text|] eqn:Hd.
    2:{ rewrite Hstep. eexists [_]. split; [done|]. split.
        - intros argv res Hin. apply list_elem_of_singleton in Hin. done.
        - intros (_ & _ & Hutf). unfold decode_utf8 in Hd. by rewrite Hutf in Hd. }
    destruct (can_spawn os (h ++ _) _) eqn:Hs2; rewrite Hstep; eexists [_; _];
      (split; [done|]); cbn [fst snd]; split.
    + intros argv res Hin.
      apply elem_of_cons in Hin as [Hin|Hin]; [done|].
      apply list_elem_of_singleton in Hin. simplify_eq.
      eexists _, text, _. split; [apply list_elem_of_here|].
      split; [exact Hd|]. split; [done|]. split; [apply Hargv|done].
    + intros _. eexists. split; [done|]. cbn. apply list_elem_of_further, list_elem_of_here.
    + intros argv res Hin.
      apply elem_of_cons in Hin as [Hin|Hin]; [done|].
      apply list_elem_of_singleton in Hin. simplify_eq.
      eexists _, text, _. split; [apply list_elem_of_here|].
      split; [exact Hd|]. split; [done|]. split; [apply Hargv|done].
    + intros (Hspawn & _). by rewrite Hspawn in Hs2.
  - unfold container._run_tests_in_docker, subprocess.Popen.
    fold (test_argv os chunk).
    destruct (can_spawn os h (test_argv os chunk)); by eexists.
Qed.

Example docker_command_example :
  let os := scripted_os (Some "4f2a") [] 0 [x2d; x2d; x6b; x20; x2d; x6a] (fun _ => 0) in
  attempts (docker._run_tests_in_docker os ["//a"; "//b"] ["export X=1"; "cd ci"] []).2 =
  [[ "docker"; "run"; "-i"; "--rm"; "--workdir"; "/ray"; "--shm-size=2.5gb";
     "029272617770.dkr.ecr.us-west-2.amazonaws.com/ci_base_images:oss-ci-build_4f2a";
     "/bin/bash"; "-ic";
     "export X=1" +:+ docker.LF +:+ "cd ci" +:+ docker.LF
       +:+ "bazel test --config=ci //a //b --k -j" ]].
Proof. vm_compute. reflexivity. Qed.

(** ** The specification's scenarios, run *)

(** Scenario A: ten targets in three partitions of sizes 4, 3 and 3; every
    container exits with 0. *)
Example scenario_A :
  let os := scripted_os (Some "4f2a") [] 0 [] (fun _ => 0) in
  let r := container.run_tests os utils.chunk_into_n "core"
             ["t1"; "t2"; "t3"; "t4"; "t5"; "t6"; "t7"; "t8"; "t9"; "t10"] 3 [] in
  r.1 = Ok true /\
  attempts r.2 =
    [ test_argv os ["t1"; "t2"; "t3"; "t4"]; test_argv os ["t5"; "t6"; "t7"];
      test_argv os ["t8"; "t9"; "t10"] ] /\
  launched r.2 = [1; 2; 3]%nat /\ waited r.2 = [1; 2; 3]%nat /\ exits_of r.2 = [0; 0; 0].
Proof. vm_compute. repeat split. Qed.

(** Scenario B: the middle container exits with 1; the other two are still
    waited upon. *)
Example scenario_B :
  let os := scripted_os (Some "4f2a") [] 0 [] (fun p => if (p =? 2)%nat then 1 else 0) in
  let r := container.run_tests os utils.chunk_into_n "core"
             ["t1"; "t2"; "t3"; "t4"; "t5"; "t6"; "t7"; "t8"; "t9"; "t10"] 3 [] in
  r.1 = Ok false /\ waited r.2 = [1; 2; 3]%nat /\ exits_of r.2 = [0; 1; 0].
Proof. vm_compute. repeat split. Qed.

(** The same in the docker variant: the status is 1. *)
Example scenario_B_docker :
  let os := scripted_os None [] 0 [] (fun p => if (p =? 3)%nat then 1 else 0) in
  let r := docker.run_tests os utils.chunk_into_n
             ["t1"; "t2"; "t3"; "t4"; "t5"; "t6"; "t7"; "t8"; "t9"; "t10"] [] 3 [] in
  r.1 = Ok 1 /\ launched r.2 = [1; 3; 5]%nat /\ waited r.2 = [1; 3; 5]%nat /\
  exits_of r.2 = [0; 1; 0].
Proof. vm_compute. repeat split. Qed.

(** [str.split()] and the strict UTF-8 codec on small inputs. *)
Example split_example :
  split ("  --jobs=4" +:+ docker.LF +:+ "--keep_going " +:+ docker.LF) =
  ["--jobs=4"; "--keep_going"].
Proof. reflexivity. Qed.

Example split_no_break_space :
  split (String.string_of_list_byte [x61; xc2; xa0; x62; xe2; x80; x83; x63]) =
  ["a"; "b"; "c"].
Proof. reflexivity. Qed.

Example decode_rejects_overlong : decode_utf8 [xc0; x80] = None.
Proof. reflexivity. Qed.

Example decode_rejects_surrogate : decode_utf8 [xed; xa0; x80] = None.
Proof. reflexivity. Qed.

Example decode_accepts_two_bytes :
  decode_utf8 [xc3; xa9] = Some (String.string_of_list_byte [xc3; xa9]).
Proof. reflexivity. Qed.

(** ** Further properties of the orchestrators *)

Lemma blocking_calls_app (h k : history) :
  blocking_calls (h ++ k) = blocking_calls h ++ blocking_calls k.
Proof. apply omap_app. Qed.

Lemma blocking_launch_events (s : nat) (l : list (list string)) :
  blocking_calls (launch_events s l) = [].
Proof.
  revert s. induction l as [|a l IH]; intros s; [done|].
  rewrite launch_events_cons. cbn. unfold blocking_calls in IH. by rewrite IH.
Qed.

Lemma blocking_wait_events (pids : list nat) (exits : list Z) :
  blocking_calls (wait_events pids exits) = [].
Proof.
  revert exits. induction pids as [|p pids IH]; intros [|c exits]; try done.
  apply IH.
Qed.

Lemma all_zero_Permutation (exits exits' : list Z) :
  exits ≡ₚ exits' -> container.all_zero exits = container.all_zero exits'.
Proof.
  intros Hp. apply eq_true_iff_eq. rewrite !all_zero_Forall. by rewrite Hp.
Qed.

(** X1: the verdict does not depend on the order in which the exit codes
    were collected: for exit codes that are a permutation of one another,
    [container.run_tests]'s boolean and [docker.run_tests]'s status agree. *)
Theorem X1_verdict_order_independent :
  forall exits exits' : list Z,
    exits ≡ₚ exits' ->
    container.all_zero exits = container.all_zero exits' /\
    (if docker.all_zero exits then 0 else 1) = (if docker.all_zero exits' then 0 else 1).
Proof.
  intros exits exits' Hp. split; [by apply all_zero_Permutation|].
  rewrite !all_zero_same. by rewrite (all_zero_Permutation exits exits').
Qed.

Lemma X1_verdict_order_witness :
  container.all_zero [0; 3; 0] = container.all_zero [3; 0; 0] /\
  (if docker.all_zero [0; 3; 0] then 0 else 1) = (if docker.all_zero [3; 0; 0] then 0 else 1).
Proof.
  apply (X1_verdict_order_independent [0; 3; 0] [3; 0; 0]).
  apply perm_swap.
Defined.

(** X2: [container.run_tests] prepares the environment once, and first: a
    history that is not empty starts with the image build, no other child is
    run to its end after it, and nothing at all follows a build that did not
    exit with 0 (no container is launched without a successful build).  The
    build runs in a copy of the orchestrator's environment in which
    DOCKER_BUILDKIT is 1 and every other variable is as it was. *)
Theorem X2_container_build_once_and_first :
  forall (os : OS) (chunker : list string -> Z -> outcome (list (list string)))
         (team : string) (T : list string) (n : Z),
    let r := container.run_tests os chunker team T n [] in
    (r.2 = [] \/
     exists env res rest,
       r.2 = ECheckCall (build_argv os team) env res :: rest /\
       env !! "DOCKER_BUILDKIT" = Some "1" /\
       (forall k, k <> "DOCKER_BUILDKIT" -> env !! k = environ os !! k) /\
       blocking_calls rest = [] /\
       (res <> Some 0 -> rest = [] /\ exists e, r.1 = Raise e)).
Proof.
  intros os chunker team T n. cbn zeta.
  pose proof (container_run_tests_cases os chunker team T n) as Hc. cbn zeta in Hc.
  destruct (chunker T n) as [chunks|e]; [|left; by rewrite Hc].
  right. exists (build_env os).
  assert (build_env os !! "DOCKER_BUILDKIT" = Some "1") as Hkit
    by apply lookup_insert_eq.
  assert (forall k, k <> "DOCKER_BUILDKIT" -> build_env os !! k = environ os !! k) as Hrest.
  { intros k Hk. by apply lookup_insert_ne. }
  destruct (can_spawn os [] (build_argv os team)).
  2:{ rewrite Hc. eexists _, []. repeat split; try done. by eexists. }
  destruct (exit_status os [] (build_argv os team) =? 0) eqn:Hz.
  2:{ rewrite Hc. eexists _, []. repeat split; try done. by eexists. }
  apply Z.eqb_eq in Hz. rewrite Hz in Hc.
  destruct Hc as [(exits & Hl & ->) | (k & c & Hk & _ & ->)]; cbn [fst snd].
  - eexists _, _. split; [reflexivity|]. split; [done|]. split; [done|].
    rewrite blocking_calls_app, blocking_launch_events, blocking_wait_events.
    split; [done|]. intros Hres. by destruct Hres.
  - eexists _, _. split; [reflexivity|]. split; [done|]. split; [done|].
    rewrite blocking_calls_app, blocking_launch_events.
    split; [done|]. intros Hres. by destruct Hres.
Qed.



Section docker_exact.
Context (os : OS) (pre : list string).
Implicit Types (h : history) (chunks : list (list string)) (outs : list bytes).




Lemma blocking_docker_fan_out start chunks outs :
  length outs = length chunks ->
  blocking_calls (docker_fan_out_events os pre start chunks outs) =
  replicate (length chunks) (options_argv os).
Proof.
  revert start outs. induction chunks as [|c chunks IH]; intros start [|o outs] Hl;
    try done.
  cbn. f_equal. apply IH. cbn in Hl. lia.
Qed.


(** The fan-out of [docker.run_tests], event by event. *)
Lemma docker_fan_out_exact chunks h :
  let r := mapM (fun c => docker._run_tests_in_docker os c pre) chunks h in
  match r.1 with
  | Ok runs =>
    exists outs,
      length outs = length chunks /\
      subprocess.pid <$> runs = docker_handles (length h) chunks /\
      r.2 = h ++ docker_fan_out_events os pre (length h) chunks outs
  | Raise e =>
    exists k c outs tail,
      chunks !! k = Some c /\ length outs = k /\
      docker_launch_failure os pre c e tail /\
      r.2 = h ++ docker_fan_out_events os pre (length h) (take k chunks) outs ++ tail
  end.
Proof.
  revert h. induction chunks as [|c chunks IH]; intros h; cbn zeta.
  - exists []. cbn. by rewrite app_nil_r.
  - cbn [mapM].
    pose proof (docker_launch_step os pre c h) as Hstep. cbn zeta in Hstep.
    destruct (can_spawn os h (options_argv os)).
    2:{ erewrite bind_raise; [|exact Hstep]. cbn [fst snd].
        exists O, c, [], [ECheckOutput (options_argv os) None].
        repeat split; try done. by left. }
    destruct (exit_status os h (options_argv os) =? 0) eqn:Hz.
    2:{ erewrite bind_raise; [|exact Hstep]. cbn [fst snd].
        eexists O, c, [], [_]. repeat split; try done.
        right. left. apply Z.eqb_neq in Hz. by eexists _, _. }
    apply Z.eqb_eq in Hz. rewrite Hz in Hstep.
    set (out := stdout_of os h (options_argv os)) in *.
    unfold decode_utf8 in Hstep.
    destruct (utf8_valid out) eqn:Hutf.
    2:{ erewrite bind_raise; [|exact Hstep]. cbn [fst snd].
        eexists O, c, [], [_]. repeat split; try done.
        right. right. left. exists out. unfold decode_utf8. by rewrite Hutf. }
    destruct (can_spawn os (h ++ _) _).
    2:{ erewrite bind_raise; [|exact Hstep]. cbn [fst snd].
        eexists O, c, [], [_; _]. repeat split; try done.
        right. right. right. by exists out. }
    erewrite bind_ok; [|exact Hstep].
    specialize (IH (h ++ docker_launch_pair os pre c out (S (length h)))).
    cbn zeta in IH. rewrite length_app in IH. cbn [length docker_launch_pair] in IH.
    replace (length h + 2)%nat with (S (S (length h))) in IH by lia.
    fold (docker_launch_pair os pre c out (S (length h))).
    destruct (mapM _ chunks _) as [[runs|e] h'] eqn:Hrest; cbn [fst snd] in *.
    + destruct IH as (outs & Hl & Hpids & ->).
      erewrite bind_ok; [|exact Hrest]. unfold ret. cbn [fst snd].
      exists (out :: outs). split; [cbn; lia|]. split; [cbn; by rewrite Hpids|].
      cbn [docker_fan_out_events]. by rewrite <- !app_assoc.
    + destruct IH as (k & c' & outs & tail & Hk & Hl & Hfail & ->).
      erewrite bind_raise; [|exact Hrest]. cbn [fst snd].
      exists (S k), c', (out :: outs), tail. split; [done|]. split; [cbn; lia|].
      split; [done|]. cbn [take docker_fan_out_events]. by rewrite <- !app_assoc.
Qed.
End docker_exact.

Lemma docker_handles_length (start : nat) (chunks : list (list string)) :
  length (docker_handles start chunks) = length chunks.
Proof.
  revert start. induction chunks as [|c chunks IH]; intros start; cbn; [done|].
  by rewrite IH.
Qed.

(** X4: the history behind a verdict of [docker.run_tests], event by event.
    The export script is run once per partition, successfully, immediately
    before that partition's container is launched with the options of that
    very run; after the last launch the handles are waited upon in launch
    order, and the status is 0 exactly when all the exit codes are. *)
Theorem X4_docker_verdict_history :
  forall (os : OS) (chunker : list string -> Z -> outcome (list (list string)))
         (T pre : list string) (n z : Z),
    let r := docker.run_tests os chunker T pre n [] in
    r.1 = Ok z ->
    exists chunks outs exits,
      chunker T n = Ok chunks /\
      length outs = length chunks /\ length exits = length chunks /\
      r.2 = docker_fan_out_events os pre 0 chunks outs
            ++ wait_events (docker_handles 0 chunks) exits /\
      blocking_calls r.2 = replicate (length chunks) (options_argv os) /\
      z = (if docker.all_zero exits then 0 else 1).
Proof.
  intros os chunker T pre n z. cbn zeta. unfold docker.run_tests.
  destruct (chunker T n) as [chunks|e]; [|done].
  erewrite bind_ok; [|reflexivity].
  pose proof (docker_fan_out_exact os pre chunks []) as Hf. cbn zeta in Hf.
  destruct (mapM _ chunks []) as [[runs|e] h] eqn:Hfan; cbn [fst snd] in Hf.
  2:{ erewrite bind_raise; [|exact Hfan]. done. }
  destruct Hf as (outs & Hl & Hpids & ->).
  erewrite bind_ok; [|exact Hfan].
  destruct (fan_in os runs ([] ++ docker_fan_out_events os pre 0 chunks outs))
    as (exits & Hle & Hwait).
  erewrite bind_ok; [|exact Hwait]. unfold ret. cbn [fst snd length] in *.
  intros Hz. simplify_eq.
  assert (length exits = length chunks) as Hle'.
  { rewrite Hle, <- (length_fmap subprocess.pid), Hpids. apply docker_handles_length. }
  exists chunks, outs, exits. rewrite Hpids.
  rewrite !blocking_calls_app, blocking_docker_fan_out, blocking_wait_events, app_nil_r
    by done.
  done.
Qed.

Lemma X4_docker_verdict_history_witness :
  let os := scripted_os None [] 0 [x2d; x6b] (fun p => if (p =? 3)%nat then 1 else 0) in
  let r := docker.run_tests os utils.chunk_into_n ["//a"; "//b"; "//c"] ["cd ci"] 2 [] in
  exists chunks outs exits,
    utils.chunk_into_n ["//a"; "//b"; "//c"] 2 = Ok chunks /\
    length outs = length chunks /\ length exits = length chunks /\
    r.2 = docker_fan_out_events os ["cd ci"] 0 chunks outs
          ++ wait_events (docker_handles 0 chunks) exits /\
    blocking_calls r.2 = replicate (length chunks) (options_argv os) /\
    1 = (if docker.all_zero exits then 0 else 1).
Proof.
  apply (X4_docker_verdict_history
           (scripted_os None [] 0 [x2d; x6b] (fun p => if (p =? 3)%nat then 1 else 0))
           utils.chunk_into_n ["//a"; "//b"; "//c"] ["cd ci"] 2 1).
  vm_compute. reflexivity.
Defined.



(** ** Words, [split] and [join] *)

Lemma space_width_prefix (s t : bytes) : space_width (s ++ t) = O -> space_width s = O.
Proof.
  destruct s as [|b0 [|b1 [|b2 s]]]; [done| | |]; cbn [app]; unfold space_width.
  - destruct (in_range 9 13 b0 || in_range 28 32 b0); [done|]. done.
  - destruct (in_range 9 13 b0 || in_range 28 32 b0); [done|].
    destruct (in_range 194 194 b0 && _); [done|]. done.
  - done.
Qed.

(** A white-space character never straddles a space: what follows a space
    decides nothing about the bytes before it. *)
Lemma space_width_before_space (s t : bytes) :
  s <> [] -> space_width s = O -> space_width (s ++ x20 :: t) = O.
Proof.
  destruct s as [|b0 [|b1 [|b2 s]]]; [done| | |]; intros _; cbn [app]; unfold space_width.
  - destruct (in_range 9 13 b0 || in_range 28 32 b0); [done|]. intros _.
    change (in_range 133 133 x20) with false. change (in_range 160 160 x20) with false.
    rewrite andb_false_r.
    destruct t as [|b2 t]; [done|].
    change (in_range 154 154 x20) with false. change (in_range 128 128 x20) with false.
    change (in_range 129 129 x20) with false.
    by rewrite !andb_false_r.
  - destruct (in_range 9 13 b0 || in_range 28 32 b0); [done|].
    destruct (in_range 194 194 b0 && _); [done|]. intros _.
    change (in_range 128 128 x20) with false. change (in_range 128 138 x20) with false.
    change (in_range 168 169 x20) with false. change (in_range 175 175 x20) with false.
    change (in_range 159 159 x20) with false.
    by rewrite !andb_false_r.
  - done.
Qed.

Section split_lemmas.
Implicit Types (w t s acc : bytes) (ws : list bytes).

Lemma spaceless_before_nil w : spaceless_before w [] <-> no_space w = true.
Proof.
  induction w as [|c w IH]; cbn [spaceless_before no_space]; [done|].
  rewrite app_nil_r, andb_true_iff, Nat.eqb_eq, IH. done.
Qed.

Lemma spaceless_before_weaken w t : spaceless_before w t -> spaceless_before w [].
Proof.
  induction w as [|c w IH]; cbn [spaceless_before]; [done|].
  intros (Hc & Hw). split; [|by apply IH].
  rewrite app_nil_r. by apply (space_width_prefix (c :: w) t).
Qed.

Lemma spaceless_before_space w t : spaceless_before w [] -> spaceless_before w (x20 :: t).
Proof.
  induction w as [|c w IH]; cbn [spaceless_before]; [done|].
  rewrite app_nil_r. intros (Hc & Hw). split; [|by apply IH].
  by apply (space_width_before_space (c :: w) t).
Qed.

Lemma spaceless_before_snoc w c t :
  spaceless_before w (c :: t) -> space_width (c :: t) = O ->
  spaceless_before (w ++ [c]) t.
Proof.
  induction w as [|c' w IH]; cbn [spaceless_before app]; [done|].
  intros (Hc & Hw) Ht. rewrite <- app_assoc. split; [done|]. by apply IH.
Qed.

(** Reading a word: its bytes join the word being read. *)
Lemma split_words_word w t acc :
  spaceless_before w t -> split_words (w ++ t) O acc = split_words t O (rev w ++ acc).
Proof.
  revert acc. induction w as [|c w IH]; intros acc; [done|].
  cbn [spaceless_before]. intros (Hc & Hw).
  cbn [app split_words]. rewrite Hc, IH by done.
  cbn [rev]. by rewrite <- app_assoc.
Qed.

(** Every word [split] returns is not empty and holds no white space. *)
Lemma split_words_good s skip acc :
  (skip = O -> spaceless_before (rev acc) s) ->
  (skip <> O -> acc = []) ->
  Forall (fun w => w <> [] /\ no_space w = true) (split_words s skip acc).
Proof.
  revert skip acc. induction s as [|c s IH]; intros skip acc Hacc Hskip.
  - cbn [split_words]. destruct acc as [|a acc]; [constructor|].
    destruct skip as [|k]; [|by specialize (Hskip ltac:(done))].
    constructor; [|constructor]. split.
    + cbn [rev]. by destruct (rev acc).
    + apply spaceless_before_nil. by apply Hacc.
  - cbn [split_words]. destruct skip as [|k].
    + specialize (Hacc eq_refl).
      destruct (space_width (c :: s)) as [|k] eqn:Hw.
      * apply IH; [|done]. intros _. cbn [rev]. by apply spaceless_before_snoc.
      * assert (Forall (fun w => w <> [] /\ no_space w = true) (split_words s k []))
          as Hrest.
        { apply IH; [|done]. by intros _. }
        destruct acc as [|a acc]; [done|]. constructor; [|done]. split.
        -- cbn [rev]. by destruct (rev acc).
        -- apply spaceless_before_nil. by eapply spaceless_before_weaken.
    + rewrite (Hskip ltac:(done)). apply IH; [|done]. by intros _.
Qed.

(** Splitting what was joined with spaces gives the words back. *)
Lemma split_words_join ws :
  Forall (fun w => w <> [] /\ no_space w = true) ws ->
  split_words (join_bytes ws) O [] = ws.
Proof.
  induction ws as [|w ws IH]; [done|].
  intros Hws. apply Forall_cons in Hws as ((Hne & Hw) & Hws).
  apply spaceless_before_nil in Hw.
  destruct ws as [|w' ws].
  - cbn [join_bytes]. rewrite <- (app_nil_r w) at 1.
    rewrite split_words_word by done. cbn [split_words]. rewrite app_nil_r.
    destruct (rev w) eqn:Hrev.
    + apply (f_equal (@rev _)) in Hrev. rewrite rev_involutive in Hrev. done.
    + by rewrite <- Hrev, rev_involutive.
  - change (join_bytes (w :: w' :: ws)) with (w ++ x20 :: join_bytes (w' :: ws)).
    rewrite split_words_word by by apply spaceless_before_space.
    rewrite app_nil_r.
    change (split_words (x20 :: join_bytes (w' :: ws)) O (rev w))
      with (match rev w with
            | [] => split_words (join_bytes (w' :: ws)) O []
            | _ => rev (rev w) :: split_words (join_bytes (w' :: ws)) O []
            end).
    rewrite IH by done.
    destruct (rev w) eqn:Hrev.
    + apply (f_equal (@rev _)) in Hrev. rewrite rev_involutive in Hrev. done.
    + by rewrite <- Hrev, rev_involutive.
Qed.
End split_lemmas.

Section string_lemmas.
Implicit Types (a b s sep : string) (ws : list string).

Lemma string_app_assoc a b s : a +:+ (b +:+ s) = (a +:+ b) +:+ s.
Proof.
  induction a as [|c a IH]; [reflexivity|].
  change (String c (a +:+ (b +:+ s)) = String c ((a +:+ b) +:+ s)). by rewrite IH.
Qed.

Lemma list_byte_of_string_app a b :
  String.list_byte_of_string (a +:+ b) =
  String.list_byte_of_string a ++ String.list_byte_of_string b.
Proof.
  induction a as [|c a IH]; [reflexivity|].
  change (byte_of_ascii c :: String.list_byte_of_string (a +:+ b) =
          byte_of_ascii c :: (String.list_byte_of_string a ++ String.list_byte_of_string b)).
  by rewrite IH.
Qed.

Lemma list_byte_of_string_join ws :
  String.list_byte_of_string (join " " ws) =
  join_bytes (String.list_byte_of_string <$> ws).
Proof.
  induction ws as [|w ws IH]; [reflexivity|].
  destruct ws as [|w' ws]; [reflexivity|].
  change (join " " (w :: w' :: ws)) with (w +:+ " " +:+ join " " (w' :: ws)).
  rewrite !list_byte_of_string_app, IH. reflexivity.
Qed.

Lemma join_app sep (l1 l2 : list string) :
  l1 <> [] -> l2 <> [] -> join sep (l1 ++ l2) = join sep l1 +:+ sep +:+ join sep l2.
Proof.
  intros H1 H2. induction l1 as [|x l1 IH]; [done|].
  destruct l1 as [|y l1].
  - destruct l2; [done|reflexivity].
  - change (join sep ((x :: y :: l1) ++ l2)) with (x +:+ sep +:+ join sep ((y :: l1) ++ l2)).
    rewrite IH by done.
    change (join sep (x :: y :: l1)) with (x +:+ sep +:+ join sep (y :: l1)).
    by rewrite <- !string_app_assoc.
Qed.

Lemma prefix_app a b : String.prefix a (a +:+ b) = true.
Proof.
  induction a as [|c a IH]; [by destruct b|].
  change (String.prefix (String c a) (String c (a +:+ b)) = true).
  cbn [String.prefix]. by destruct (Ascii.ascii_dec c c).
Qed.

Lemma contains_app a s b : contains s (a +:+ s +:+ b) = true.
Proof.
  induction a as [|c a IH].
  - change ("" +:+ s +:+ b) with (s +:+ b).
    destruct (s +:+ b) eqn:Heq; cbn [contains]; rewrite <- Heq, prefix_app; done.
  - change (String c a +:+ s +:+ b) with (String c (a +:+ s +:+ b)).
    cbn [contains]. rewrite IH. apply orb_true_r.
Qed.

Lemma word_bytes s :
  word s = true <->
  String.list_byte_of_string s <> [] /\ no_space (String.list_byte_of_string s) = true.
Proof.
  unfold word. rewrite andb_true_iff, negb_true_iff. destruct s; cbn; intuition congruence.
Qed.

Lemma word_of_bytes (w : bytes) :
  w <> [] -> no_space w = true -> word (String.string_of_list_byte w) = true.
Proof.
  intros Hne Hw. apply word_bytes.
  by rewrite String.list_byte_of_string_of_list_byte.
Qed.
End string_lemmas.

Lemma split_join_words (ws : list string) :
  Forall (fun w => word w = true) ws -> split (join " " ws) = ws.
Proof.
  intros Hws. unfold split.
  rewrite list_byte_of_string_join, split_words_join.
  - rewrite <- list_fmap_compose. rewrite <- (list_fmap_id ws) at 2.
    apply list_fmap_ext. intros i w _. apply String.string_of_list_byte_of_string.
  - apply Forall_fmap. eapply Forall_impl; [exact Hws|]. intros w. apply word_bytes.
Qed.

Lemma split_words_are_words (text : string) : Forall (fun w => word w = true) (split text).
Proof.
  unfold split. apply Forall_fmap.
  eapply Forall_impl; [apply split_words_good; done|].
  intros w (Hne & Hw). by apply word_of_bytes.
Qed.

(** X6: the bazel options of [docker._run_tests_in_docker], the [split()] of
    what the export script printed, are words: none is empty and none holds
    white space; so joining them with spaces and splitting again changes
    nothing, whatever was printed. *)
Theorem X6_exported_options_are_words :
  forall text : string,
    Forall (fun w => word w = true) (split text) /\
    split (join " " (split text)) = split text.
Proof.
  intros text. split; [apply split_words_are_words|].
  apply split_join_words, split_words_are_words.
Qed.




Example target_with_space_is_cut :
  split (join " " ["bazel"; "test"; "--config=ci"; "//a b"]) =
  ["bazel"; "test"; "--config=ci"; "//a"; "b"].
Proof. reflexivity. Qed.

(** X8: the command line that [run_command] hands to
    [subprocess.check_output], joined with spaces, contains the shell
    invocation followed by the command: [/bin/bash -ic] and the joined
    command list in [docker.py] (what [test_run_command] asserts for
    [run command], here for every command), [/bin/bash -ice] and the script
    in [container.py]. *)
Theorem X8_run_command_shell_invocation :
  forall (os : OS) (command : list string) (script : string) (h : history),
    (exists argv res,
        (docker.run_command os command h).2 = h ++ [ECheckOutput argv res] /\
        contains ("/bin/bash -ic " +:+ join " " command) (join " " argv) = true) /\
    (exists argv res,
        (docker.run_command os ["run"; "command"] h).2 = h ++ [ECheckOutput argv res] /\
        _mock_check_output argv = true) /\
    (exists argv res,
        (container.run_command os script h).2 = h ++ [ECheckOutput argv res] /\
        contains ("/bin/bash -ice " +:+ script) (join " " argv) = true).
Proof.
  intros os command script h.
  assert (forall flag x,
             contains ("/bin/bash " +:+ flag +:+ " " +:+ x)
               (join " " (docker._get_docker_run_command os ++ ["/bin/bash"; flag; x]))
             = true) as Hin.
  { intros flag x. rewrite join_app by done.
    change (join " " ["/bin/bash"; flag; x]) with ("/bin/bash " +:+ flag +:+ " " +:+ x).
    set (needle := "/bin/bash " +:+ flag +:+ " " +:+ x).
    set (before := join " " (docker._get_docker_run_command os)).
    replace (before +:+ " " +:+ needle) with ((before +:+ " ") +:+ needle +:+ "").
    - apply contains_app.
    - by rewrite string_app_nil_r, string_app_assoc. }
  split; [|split].
  - destruct (check_output_spec os
                (docker._get_docker_run_command os ++ ["/bin/bash"; "-ic"; join " " command])
                h) as (Hev & _).
    eexists _, _. split; [exact Hev|]. apply (Hin "-ic").
  - destruct (check_output_spec os
                (docker._get_docker_run_command os
                   ++ ["/bin/bash"; "-ic"; join " " ["run"; "command"]]) h) as (Hev & _).
    eexists _, _. split; [exact Hev|]. apply (Hin "-ic" "run command").
  - destruct (check_output_spec os (container._docker_run_bash_script os script) h)
      as (Hev & _).
    eexists _, _. split; [exact Hev|]. apply (Hin "-ice" script).
Qed.

(** ** [docker_login] *)

Section login_lemmas.
Import login.
Context (os : login.OS).

(** Seeking back to where a write began, the written bytes are read first. *)
Lemma file_write_seek_read (data : bytes) (f : file) :
  take (length data) (readable (seek (pos f) (flush (write data f)))) = data.
Proof.
  unfold readable, seek, flush, write. cbn [content pos].
  rewrite drop_app_length'.
  - by rewrite take_app_length.
  - rewrite length_take, length_app, length_replicate. lia.
Qed.

Lemma temporary_file_round_trip (data : bytes) :
  readable (seek 0 (flush (write data {| content := []; pos := 0 |}))) = data.
Proof.
  unfold readable, seek, flush, write. cbn [content pos].
  by rewrite drop_0, take_0, drop_nil, app_nil_r.
Qed.

(** Every way [container.docker_login] can end. *)
Lemma container_docker_login_cases :
  let r := container_docker_login os [] in
  if starts os [] pip_argv then
    let e1 := Run pip_argv Inherited (Some (status os [] pip_argv)) in
    if starts os [e1] aws_argv then
      let c := status os [e1] aws_argv in
      let pw := output os [e1] aws_argv in
      let e2 := CheckOutput aws_argv (Some (c, pw)) in
      if c =? 0 then
        if tempfile_ok os [e1; e2] then
          let e3 := TemporaryFile true in
          let la := login_argv container.DOCKER_ECR in
          if starts os [e1; e2; e3] la
          then r = (Ok tt, [e1; e2; e3;
                            Run la (FromFile pw) (Some (status os [e1; e2; e3] la))])
          else r = (Raise (OSError la), [e1; e2; e3; Run la (FromFile pw) None])
        else r = (Raise (OSError []), [e1; e2; TemporaryFile false])
      else r = (Raise (CalledProcessError c aws_argv), [e1; e2])
    else r = (Raise (OSError aws_argv), [e1; CheckOutput aws_argv None])
  else r = (Raise (OSError pip_argv), [Run pip_argv Inherited None]).
Proof.
  cbn zeta. unfold container_docker_login.
  assert (forall {A B} (m : L A) (k : A -> L B) h a h',
             m h = (Ok a, h') -> login.bind m k h = k a h') as bind_ok.
  { intros A B m k h a h' Hm. unfold login.bind. by rewrite Hm. }
  assert (forall {A B} (m : L A) (k : A -> L B) h e h',
             m h = (Raise e, h') -> login.bind m k h = (Raise e, h')) as bind_raise.
  { intros A B m k h e h' Hm. unfold login.bind. by rewrite Hm. }
  assert (forall argv input h,
             run os argv input h =
             if starts os h argv
             then (Ok (status os h argv), h ++ [Run argv input (Some (status os h argv))])
             else (Raise (OSError argv), h ++ [Run argv input None])) as Hrun by done.
  pose proof (Hrun pip_argv Inherited []) as H1.
  destruct (starts os [] pip_argv).
  2:{ by erewrite bind_raise. }
  erewrite bind_ok; [|exact H1]. cbn [app].
  set (e1 := Run pip_argv Inherited _).
  assert (check_output os aws_argv [e1] =
          if starts os [e1] aws_argv
          then (if status os [e1] aws_argv =? 0
                then Ok (output os [e1] aws_argv)
                else Raise (CalledProcessError (status os [e1] aws_argv) aws_argv),
                [e1; CheckOutput aws_argv
                       (Some (status os [e1] aws_argv, output os [e1] aws_argv))])
          else (Raise (OSError aws_argv), [e1; CheckOutput aws_argv None])) as H2 by done.
  destruct (starts os [e1] aws_argv).
  2:{ by erewrite bind_raise. }
  destruct (status os [e1] aws_argv =? 0).
  2:{ by erewrite bind_raise. }
  erewrite bind_ok; [|exact H2].
  set (e2 := CheckOutput aws_argv _).
  assert (temporary_file os [e1; e2] =
          if tempfile_ok os [e1; e2]
          then (Ok {| content := []; pos := 0 |}, [e1; e2; TemporaryFile true])
          else (Raise (OSError []), [e1; e2; TemporaryFile false])) as H3 by done.
  destruct (tempfile_ok os [e1; e2]).
  2:{ by erewrite bind_raise. }
  erewrite bind_ok; [|exact H3]. cbn zeta.
  rewrite temporary_file_round_trip.
  pose proof (Hrun (login_argv container.DOCKER_ECR)
                (FromFile (output os [e1] aws_argv)) [e1; e2; TemporaryFile true]) as H4.
  destruct (starts os [e1; e2; TemporaryFile true] (login_argv container.DOCKER_ECR)).
  - by erewrite bind_ok.
  - by erewrite bind_raise.
Qed.
End login_lemmas.

(** Every way [docker.docker_login] can end. *)
Lemma docker_docker_login_cases (os : login.OS) :
  let r := login.docker_docker_login os [] in
  let la := login.login_argv docker.DOCKER_ECR in
  if login.starts os [] login.aws_argv then
    let e1 := login.PopenPipe login.aws_argv (Some O) in
    if login.starts os [e1] la
    then r = (Ok tt, [e1; login.Run la (login.FromPipe O) (Some (login.status os [e1] la))])
    else r = (Raise (OSError la), [e1; login.Run la (login.FromPipe O) None])
  else r = (Raise (OSError login.aws_argv), [login.PopenPipe login.aws_argv None]).
Proof.
  cbn zeta. unfold login.docker_docker_login, login.bind, login.popen_pipe, login.run.
  cbn [app length].
  destruct (login.starts os [] login.aws_argv); [|reflexivity]. cbn [app].
  destruct (login.starts os _ (login.login_argv docker.DOCKER_ECR)); reflexivity.
Qed.

(** X9: [docker_login] of [container.py] checks the credential fetch and
    nothing else.  It returns normally exactly when [pip], [aws], the
    temporary file and [docker] could be started and [aws] exited with 0,
    whatever [pip install] and [docker login] exited with: a failed login is
    not reported.  The only CalledProcessError it raises is the one of
    [aws], and then [docker login] is not run.  Whenever [docker login] is
    run, its standard input is exactly what [aws] printed (written to the
    temporary file, read back from its start). *)
Theorem X9_container_docker_login :
  forall os : login.OS,
    let r := login.container_docker_login os [] in
    let la := login.login_argv container.DOCKER_ECR in
    (r.1 = Ok tt <->
     exists pip_code password login_code,
       r.2 = [ login.Run login.pip_argv login.Inherited (Some pip_code);
               login.CheckOutput login.aws_argv (Some (0, password));
               login.TemporaryFile true;
               login.Run la (login.FromFile password) (Some login_code) ]) /\
    (forall c argv,
        r.1 = Raise (CalledProcessError c argv) ->
        argv = login.aws_argv /\ c <> 0 /\ login.logins r.2 = []) /\
    (forall input res,
        (input, res) ∈ login.logins r.2 ->
        exists password,
          input = login.FromFile password /\
          login.CheckOutput login.aws_argv (Some (0, password)) ∈ r.2).
Proof.
  intros os. cbn zeta.
  pose proof (container_docker_login_cases os) as Hc. cbn zeta in Hc.
  destruct (login.starts os [] login.pip_argv).
  2:{ rewrite Hc. cbn. repeat split; try done.
      - intros (? & ? & ? & ?). done.
      - intros input res Hin. by apply elem_of_nil in Hin. }
  destruct (login.starts os _ login.aws_argv).
  2:{ rewrite Hc. cbn. repeat split; try done.
      - intros (? & ? & ? & ?). done.
      - intros input res Hin. by apply elem_of_nil in Hin. }
  destruct (login.status os _ login.aws_argv =? 0) eqn:Hz.
  2:{ rewrite Hc. cbn. apply Z.eqb_neq in Hz. repeat split; try done.
      - intros (? & ? & ? & ?). done.
      - by simplify_eq.
      - by simplify_eq.
      - intros input res Hin. by apply elem_of_nil in Hin. }
  apply Z.eqb_eq in Hz. rewrite Hz in Hc.
  destruct (login.tempfile_ok os _).
  2:{ rewrite Hc. cbn. repeat split; try done.
      - intros (? & ? & ? & ?). done.
      - intros input res Hin. by apply elem_of_nil in Hin. }
  destruct (login.starts os _ (login.login_argv container.DOCKER_ECR)); rewrite Hc; cbn.
  - repeat split; try done.
    + intros _. by eexists _, _, _.
    + intros input res Hin. apply list_elem_of_singleton in Hin. simplify_eq.
      eexists. split; [done|]. apply list_elem_of_further, list_elem_of_here.
  - repeat split; try done.
    + intros (? & ? & ? & ?). done.
    + intros input res Hin. apply list_elem_of_singleton in Hin. simplify_eq.
      eexists. split; [done|]. apply list_elem_of_further, list_elem_of_here.
Qed.

(** A login that fails is not noticed. *)
Example container_docker_login_failed_login :
  let r := login.container_docker_login (login.scripted [] 0 1 [x73; x33; x63]) [] in
  r.1 = Ok tt /\ login.logins r.2 = [(login.FromFile [x73; x33; x63], Some 1)].
Proof. vm_compute. done. Qed.

(** X10: [docker_login] of [docker.py] checks nothing.  It returns normally
    exactly when [aws] and [docker] could be started, with [docker login]
    reading from the pipe of the [aws] child; it never raises
    CalledProcessError; and neither the exit status nor the output of [aws]
    has any part in what it does: under two operating systems that start the
    same children and give [docker login] the same exit status it behaves
    the same. *)
Theorem X10_docker_docker_login :
  forall os : login.OS,
    let r := login.docker_docker_login os [] in
    let la := login.login_argv docker.DOCKER_ECR in
    (r.1 = Ok tt <->
     exists login_code,
       r.2 = [ login.PopenPipe login.aws_argv (Some O);
               login.Run la (login.FromPipe O) (Some login_code) ]) /\
    (forall c argv, r.1 <> Raise (CalledProcessError c argv)) /\
    (forall os' : login.OS,
        (forall h a, login.starts os' h a = login.starts os h a) ->
        (forall h, login.status os' h la = login.status os h la) ->
        login.docker_docker_login os' [] = r).
Proof.
  intros os. cbn zeta.
  pose proof (docker_docker_login_cases os) as Hc. cbn zeta in Hc.
  split; [|split].
  - destruct (login.starts os [] login.aws_argv).
    2:{ rewrite Hc. cbn. split; [done|]. intros (? & ?). done. }
    destruct (login.starts os _ (login.login_argv docker.DOCKER_ECR)); rewrite Hc; cbn.
    + split; [|done]. intros _. by eexists.
    + split; [done|]. intros (? & ?). done.
  - intros c argv.
    destruct (login.starts os [] login.aws_argv); [|by rewrite Hc].
    destruct (login.starts os _ (login.login_argv docker.DOCKER_ECR)); by rewrite Hc.
  - intros os' Hstarts Hstatus.
    pose proof (docker_docker_login_cases os') as Hc'. cbn zeta in Hc'.
    rewrite !Hstarts, Hstatus in Hc'.
    destruct (login.starts os [] login.aws_argv); [|by rewrite Hc, Hc'].
    destruct (login.starts os _ (login.login_argv docker.DOCKER_ECR)); by rewrite Hc, Hc'.
Qed.

(** With an [aws] that fails, the two variants part: [container.py] raises
    before any login, [docker.py] logs in with whatever the pipe holds. *)
Example docker_login_variants_on_failed_aws :
  let os := login.scripted [] 254 0 [] in
  (login.container_docker_login os []).1 = Raise (CalledProcessError 254 login.aws_argv) /\
  login.logins (login.container_docker_login os []).2 = [] /\
  (login.docker_docker_login os []).1 = Ok tt /\
  login.logins (login.docker_docker_login os []).2 = [(login.FromPipe O, Some 0)].
Proof. vm_compute. done. Qed.

(** X11: for a partition that is not empty, without pre-run commands and
    with an export script that succeeds and prints no option, the docker
    variant launches exactly the container of the container variant, but
    for the shell flag: the same [docker run] options and image, and the
    same command [bazel test --config=ci <targets>], under [-ic] instead of
    [-ice]. *)
Theorem X11_variants_launch_same_command :
  forall (os : OS) (chunk : list string) (h : history),
    chunk <> [] ->
    can_spawn os h (options_argv os) = true ->
    exit_status os h (options_argv os) = 0 ->
    utf8_valid (stdout_of os h (options_argv os)) = true ->
    split (String.string_of_list_byte (stdout_of os h (options_argv os))) = [] ->
    let command := "bazel test --config=ci " +:+ join " " chunk in
    attempts (docker._run_tests_in_docker os chunk [] h).2 =
      attempts h ++ [container._get_docker_run_command os ++ ["/bin/bash"; "-ic"; command]] /\
    attempts (container._run_tests_in_docker os chunk h).2 =
      attempts h ++ [container._get_docker_run_command os ++ ["/bin/bash"; "-ice"; command]].
Proof.
  intros os chunk h Hne Hs Hx Hutf Hopts. cbn zeta. split.
  - pose proof (docker_launch_step os [] chunk h) as Hstep. cbn zeta in Hstep.
    rewrite Hs, Hx in Hstep. cbn [Z.eqb] in Hstep.
    unfold decode_utf8 in Hstep. rewrite Hutf, Hopts in Hstep.
    assert (docker_test_argv os [] chunk [] =
            container._get_docker_run_command os
            ++ ["/bin/bash"; "-ic"; "bazel test --config=ci " +:+ join " " chunk]) as Hargv.
    { unfold docker_test_argv. rewrite app_nil_r. by destruct chunk. }
    rewrite Hargv in Hstep.
    destruct (can_spawn os (h ++ _) _); rewrite Hstep; cbn [snd];
      rewrite attempts_app; done.
  - unfold container._run_tests_in_docker, subprocess.Popen. cbn zeta.
    destruct (can_spawn os h (container._docker_run_bash_script os _)); cbn [snd];
      rewrite attempts_app; reflexivity.
Qed.

Lemma X11_variants_launch_same_command_witness :
  let os := scripted_os (Some "4f2a") [] 0 [x20; x0a] (fun _ => 0) in
  let command := "bazel test --config=ci " +:+ join " " ["//a"; "//b"] in
  attempts (docker._run_tests_in_docker os ["//a"; "//b"] [] []).2 =
    attempts [] ++ [container._get_docker_run_command os ++ ["/bin/bash"; "-ic"; command]] /\
  attempts (container._run_tests_in_docker os ["//a"; "//b"] []).2 =
    attempts [] ++ [container._get_docker_run_command os ++ ["/bin/bash"; "-ice"; command]].
Proof.
  apply (X11_variants_launch_same_command
           (scripted_os (Some "4f2a") [] 0 [x20; x0a] (fun _ => 0)) ["//a"; "//b"] []);
    [discriminate|reflexivity|reflexivity|reflexivity|reflexivity].
Defined.

(** An empty partition is where the two commands part: a trailing space. *)
Example variants_on_empty_partition :
  let os := scripted_os None [] 0 [] (fun _ => 0) in
  attempts (docker._run_tests_in_docker os [] [] []).2 =
    [container._get_docker_run_command os ++ ["/bin/bash"; "-ic"; "bazel test --config=ci"]] /\
  attempts (container._run_tests_in_docker os [] []).2 =
    [container._get_docker_run_command os ++ ["/bin/bash"; "-ice"; "bazel test --config=ci "]].
Proof. vm_compute. done. Qed.
